(** * hyperdrive: the per-replica consensus state machine

  A shallow embedding of [state/machine.go].  The Go [machine] struct
  becomes the record [machine]; each method that mutates its receiver
  becomes a function that takes the machine and returns the machine
  after the call together with what the method returns.  A nil Go
  pointer or nil interface value is [None].  A Go [panic] is the
  outcome [Panicked]. *)

From Stdlib Require Import ZArith List Bool String Lia.
Import ListNotations.
Local Open Scope Z_scope.

(** ** Package [block]: the values the machine handles *)

Module block.

(** [block.Height] and [block.Round] are declared in package [block],
    which is not among the sources, as Go's [int64]: a value is an
    integer from [minInt64] to [maxInt64], held here in [Z]; the
    comparisons are those of the integers, and the increment ([+ 1],
    [++]) wraps around from [maxInt64] to [minInt64]. *)
Definition Height := Z.
Definition Round := Z.

Definition minInt64 : Z := - 2 ^ 63.
Definition maxInt64 : Z := 2 ^ 63 - 1.

(** The value of an integer in 64-bit two's complement. *)
Definition wrap64 (z : Z) : Z := (z + 2 ^ 63) mod 2 ^ 64 - 2 ^ 63.

(** Go's [x + 1] and [x++] on an [int64]. *)
Definition inc (x : Z) : Z := wrap64 (x + 1).

Arguments wrap64 : simpl never.
Arguments inc : simpl never.

(** Modelled from the spec: the identity of a validator and a
    signature are opaque values with equality. *)
Definition Signatory := Z.
Definition Signature := Z.

(** Modelled from the spec: a signed block is a block (a [Height]
    field and a content hash) with the identity of its producer.  The
    machine reads [Height] only. *)
Record SignedBlock := mkSignedBlock {
  SignedBlock_Height : Height;
  SignedBlock_Hash : Z;
  SignedBlock_Signatory : Signatory
}.

(** [block.PreVote]: the machine builds it from the three fields
    [Block], [Height] and [Round]; a signed prevote adds, as in the
    spec, the signatory and the signature. *)
Record PreVote := mkPreVote {
  PreVote_Block : option SignedBlock;
  PreVote_Height : Height;
  PreVote_Round : Round
}.

Record SignedPreVote := mkSignedPreVote {
  SignedPreVote_PreVote : PreVote;
  SignedPreVote_Signatory : Signatory;
  SignedPreVote_Signature : Signature
}.

(** Modelled from the spec: the declaration of [block.Polka] is not
    among the sources.  The machine reads and writes its fields [Block],
    [Height] and [Round]; the spec adds the evidence, the signed
    prevotes, kept here as their signatures and signatories.  A
    composite literal that does not set the evidence leaves it at its
    zero value, the empty list. *)
Record Polka := mkPolka {
  Polka_Block : option SignedBlock;
  Polka_Round : Round;
  Polka_Height : Height;
  Polka_Signatures : list Signature;
  Polka_Signatories : list Signatory
}.

(** [block.PreCommit]: the machine builds it from the field [Polka]. *)
Record PreCommit := mkPreCommit {
  PreCommit_Polka : Polka
}.

Record SignedPreCommit := mkSignedPreCommit {
  SignedPreCommit_PreCommit : PreCommit;
  SignedPreCommit_Signatory : Signatory;
  SignedPreCommit_Signature : Signature
}.

(** Modelled from the spec: the declaration of [block.Commit] is not
    among the sources.  The machine reads and writes its field [Polka];
    the spec adds the evidence, the signed precommits. *)
Record Commit := mkCommit {
  Commit_Polka : Polka;
  Commit_Signatures : list Signature;
  Commit_Signatories : list Signatory
}.

(** The composite literal [block.Polka{Height: h, Round: r}]. *)
Definition emptyPolka (h : Height) (r : Round) : Polka :=
  mkPolka None r h [] [].

(** The composite literal [block.Commit{Polka: p}]. *)
Definition commitOver (p : Polka) : Commit :=
  mkCommit p [] [].

(** The two vote aggregators.  Their code is in package [block] and is
    not among the sources; the machine uses each through two methods,
    which are taken here as parameters, the operations of a class.
    Modelled from the spec: [Insert] updates the builder and tells
    whether the vote was new; [Polka] and [Commit], called with a height
    and the threshold, are queries that leave the builder as it is, and
    return an optional polka (commit) and an optional round; no
    operation fails. *)
Class PolkaBuilder (PB : Type) := {
  PolkaBuilder_Insert : PB -> SignedPreVote -> bool * PB;
  PolkaBuilder_Polka : PB -> Height -> Z -> option Polka * option Round
}.

Class CommitBuilder (CB : Type) := {
  CommitBuilder_Insert : CB -> SignedPreCommit -> bool * CB;
  CommitBuilder_Commit : CB -> Height -> Z -> option Commit * option Round
}.

End block.

(** ** Package [state] *)

(** The interface type [State].  The three declared states, and
  [OtherState] for a value of any other dynamic type (the nil
  interface included), which the type switch of [Transition] sends to
  its default case. *)
Inductive State :=
| WaitingForPropose
| WaitingForPolka
| WaitingForCommit
| OtherState.

(** The interface type [Transition], with [OtherTransition] for a value
  of any other dynamic type.  [Proposed] carries a pointer to a signed
  block, which may be nil. *)
Inductive Transition :=
| Proposed (SignedBlock : option block.SignedBlock)
| PreVoted (SignedPreVote : block.SignedPreVote)
| PreCommitted (SignedPreCommit : block.SignedPreCommit)
| TimedOut
| OtherTransition.

(** The interface type [Action]; the nil action is [None] at type
  [option Action]. *)
Inductive Action :=
| PreVote (PreVote : block.PreVote)
| PreCommit (PreCommit : block.PreCommit)
| Commit (Commit : block.Commit).

(** The outcome of a call that may panic. *)
Inductive result (A : Type) :=
| Returned (a : A)
| Panicked (msg : string).
Arguments Returned {A} a.
Arguments Panicked {A} msg.

Section Machine.

Context {PB CB : Type}.
Context `{block.PolkaBuilder PB} `{block.CommitBuilder CB}.

Record machine := mkMachine {
  state : State;
  height : block.Height;
  round : block.Round;
  lockedRound : option block.Round;
  lockedBlock : option block.SignedBlock;
  polkaBuilder : PB;
  commitBuilder : CB;
  consensusThreshold : Z
}.

(** Assignments to the fields of the receiver. *)
Definition set_state (s : State) (m : machine) : machine :=
  mkMachine s (height m) (round m) (lockedRound m) (lockedBlock m)
    (polkaBuilder m) (commitBuilder m) (consensusThreshold m).

Definition set_height (h : block.Height) (m : machine) : machine :=
  mkMachine (state m) h (round m) (lockedRound m) (lockedBlock m)
    (polkaBuilder m) (commitBuilder m) (consensusThreshold m).

Definition set_round (r : block.Round) (m : machine) : machine :=
  mkMachine (state m) (height m) r (lockedRound m) (lockedBlock m)
    (polkaBuilder m) (commitBuilder m) (consensusThreshold m).

Definition set_lock (lr : option block.Round)
    (lb : option block.SignedBlock) (m : machine) : machine :=
  mkMachine (state m) (height m) (round m) lr lb
    (polkaBuilder m) (commitBuilder m) (consensusThreshold m).

Definition set_polkaBuilder (pb : PB) (m : machine) : machine :=
  mkMachine (state m) (height m) (round m) (lockedRound m) (lockedBlock m)
    pb (commitBuilder m) (consensusThreshold m).

Definition set_commitBuilder (cb : CB) (m : machine) : machine :=
  mkMachine (state m) (height m) (round m) (lockedRound m) (lockedBlock m)
    (polkaBuilder m) cb (consensusThreshold m).

Definition NewMachine (s : State) (pb : PB) (cb : CB) (threshold : Z)
    : machine :=
  mkMachine s 0 0 None None pb cb threshold.

(** [machine.polkaBuilder.Polka(machine.height, machine.consensusThreshold)] *)
Definition queryPolka (m : machine) : option block.Polka * option block.Round :=
  block.PolkaBuilder_Polka (polkaBuilder m) (height m) (consensusThreshold m).

(** [machine.commitBuilder.Commit(machine.height, machine.consensusThreshold)] *)
Definition queryCommit (m : machine) : option block.Commit * option block.Round :=
  block.CommitBuilder_Commit (commitBuilder m) (height m) (consensusThreshold m).

(** [machine.polkaBuilder.Insert(v)]: the builder of the machine is
    updated in place; the boolean is the value of the call. *)
Definition insertPreVote (v : block.SignedPreVote) (m : machine)
    : bool * machine :=
  let '(isNew, pb) := block.PolkaBuilder_Insert (polkaBuilder m) v in
  (isNew, set_polkaBuilder pb m).

Definition insertPreCommit (v : block.SignedPreCommit) (m : machine)
    : bool * machine :=
  let '(isNew, cb) := block.CommitBuilder_Insert (commitBuilder m) v in
  (isNew, set_commitBuilder cb m).

(** The first block of [preVote]: the lock is given up when a polka
    of a later round than the locked one is known. *)
Definition unlockOnPolka (m : machine) : machine :=
  match lockedRound m, fst (queryPolka m) with
  | Some lr, Some polka =>
      if lr <? block.Polka_Round polka then set_lock None None m else m
  | _, _ => m
  end.

Definition preVote (proposedBlock : option block.SignedBlock) (m : machine)
    : machine * option Action :=
  let m := unlockOnPolka m in
  match lockedRound m with
  | Some _ =>
      (m, Some (PreVote (block.mkPreVote (lockedBlock m) (height m) (round m))))
  | None =>
      match proposedBlock with
      | Some b =>
          if block.SignedBlock_Height b =? height m
          then (m, Some (PreVote (block.mkPreVote (Some b) (height m) (round m))))
          else (m, Some (PreVote (block.mkPreVote None (height m) (round m))))
      | None =>
          (m, Some (PreVote (block.mkPreVote None (height m) (round m))))
      end
  end.

Definition preCommit (m : machine) : machine * option Action :=
  match fst (queryPolka m) with
  | Some polka =>
      match block.Polka_Block polka with
      | Some b =>
          (set_lock (Some (block.Polka_Round polka)) (Some b) m,
           Some (PreCommit (block.mkPreCommit polka)))
      | None =>
          (set_lock None None m,
           Some (PreCommit (block.mkPreCommit polka)))
      end
  | None =>
      (m, Some (PreCommit (block.mkPreCommit
                             (block.emptyPolka (height m) (round m)))))
  end.

(** The test [commit != nil && commit.Polka.Block != nil]. *)
Definition blockCommit (c : option block.Commit) : option block.Commit :=
  match c with
  | Some commit =>
      match block.Polka_Block (block.Commit_Polka commit) with
      | Some _ => Some commit
      | None => None
      end
  | None => None
  end.

(** The test [r != nil && *r > machine.round]. *)
Definition laterRound (r : option block.Round) (m : machine)
    : option block.Round :=
  match r with
  | Some r' => if round m <? r' then Some r' else None
  | None => None
  end.

Definition checkCommonExitConditions (m : machine) : machine * option Action :=
  let '(commit, preCommittingRound) := queryCommit m in
  match blockCommit commit with
  | Some c =>
      let m := set_state WaitingForPropose m in
      let m := set_height (block.inc (block.Polka_Height (block.Commit_Polka c))) m in
      let m := set_round 0 m in
      let m := set_lock None None m in
      (m, Some (Commit c))
  | None =>
      let '(_, preVotingRound) := queryPolka m in
      match laterRound preVotingRound m with
      | Some r' => preVote None (set_round r' m)
      | None =>
          match laterRound preCommittingRound m with
          | Some r' =>
              preCommit (set_round r' (set_state WaitingForCommit m))
          | None => (m, None)
          end
      end
  end.

(** The round advance of [waitForCommit]: the round is incremented
    first, and the commit that is returned is built from the fields of
    the machine after the increment. *)
Definition advanceRound (m : machine) : machine * option Action :=
  let m := set_state WaitingForPropose m in
  let m := set_round (block.inc (round m)) m in
  (m, Some (Commit (block.commitOver (block.emptyPolka (height m) (round m))))).

Definition waitForPropose (transition : Transition) (m : machine)
    : result (machine * option Action) :=
  match transition with
  | Proposed sb =>
      Returned (preVote sb (set_state WaitingForPolka m))
  | PreVoted v =>
      let '(_, m) := insertPreVote v m in
      Returned (checkCommonExitConditions m)
  | PreCommitted v =>
      let '(_, m) := insertPreCommit v m in
      Returned (checkCommonExitConditions m)
  | TimedOut =>
      Returned (preVote None (set_state WaitingForPolka m))
  | OtherTransition =>
      Panicked "unexpected transition type"
  end.

Definition waitForPolka (transition : Transition) (m : machine)
    : result (machine * option Action) :=
  match transition with
  | Proposed _ =>
      Returned (checkCommonExitConditions m)
  | PreVoted v =>
      let '(isNew, m) := insertPreVote v m in
      if negb isNew then Returned (m, None)
      else
        match fst (queryPolka m) with
        | Some polka =>
            if block.Polka_Round polka =? round m
            then Returned (preCommit (set_state WaitingForCommit m))
            else Returned (checkCommonExitConditions m)
        | None => Returned (checkCommonExitConditions m)
        end
  | PreCommitted v =>
      let '(isNew, m) := insertPreCommit v m in
      if negb isNew then Returned (m, None)
      else Returned (checkCommonExitConditions m)
  | TimedOut =>
      match snd (queryPolka m) with
      | None => Returned (m, None)
      | Some _ => Returned (preCommit (set_state WaitingForCommit m))
      end
  | OtherTransition =>
      Panicked "unexpected transition type"
  end.

Definition waitForCommit (transition : Transition) (m : machine)
    : result (machine * option Action) :=
  match transition with
  | Proposed _ =>
      Returned (checkCommonExitConditions m)
  | PreVoted v =>
      let '(_, m) := insertPreVote v m in
      Returned (checkCommonExitConditions m)
  | PreCommitted v =>
      let '(isNew, m) := insertPreCommit v m in
      if negb isNew then Returned (m, None)
      else
        match fst (queryCommit m) with
        | Some commit =>
            match block.Polka_Block (block.Commit_Polka commit) with
            | None =>
                if block.Polka_Round (block.Commit_Polka commit) =? round m
                then Returned (advanceRound m)
                else Returned (checkCommonExitConditions m)
            | Some _ => Returned (checkCommonExitConditions m)
            end
        | None => Returned (checkCommonExitConditions m)
        end
  | TimedOut =>
      match snd (queryCommit m) with
      | None => Returned (m, None)
      | Some _ => Returned (advanceRound m)
      end
  | OtherTransition =>
      Panicked "unexpected transition type"
  end.

(** The pre-condition that the method [Transition] checks on entry. *)
Definition lockCoupled (m : machine) : bool :=
  match lockedRound m, lockedBlock m with
  | None, None => true
  | Some _, Some _ => true
  | _, _ => false
  end.

(** The method [Transition] of the machine; the name [Transition] is
    that of the interface type above. *)
Definition machine_Transition (transition : Transition) (m : machine)
    : result (machine * option Action) :=
  match lockedRound m, lockedBlock m with
  | None, Some _ => Panicked "expected locked block to be nil"
  | Some _, None => Panicked "expected locked round to be nil"
  | _, _ =>
      match state m with
      | WaitingForPropose => waitForPropose transition m
      | WaitingForPolka => waitForPolka transition m
      | WaitingForCommit => waitForCommit transition m
      | OtherState => Panicked "unexpected state type"
      end
  end.

(** A sequence of [Transition] calls on one machine, with the actions
    they return.  A panic ends the process. *)
Fixpoint run (ts : list Transition) (m : machine)
    : result (machine * list (option Action)) :=
  match ts with
  | [] => Returned (m, [])
  | t :: ts' =>
      match machine_Transition t m with
      | Returned (m', a) =>
          match run ts' m' with
          | Returned (m'', acts) => Returned (m'', a :: acts)
          | Panicked msg => Panicked msg
          end
      | Panicked msg => Panicked msg
      end
  end.

(** *** The properties of the spec, as predicates on machines *)

(** I1 (lock coupling): [lockedRound] is defined iff [lockedBlock] is. *)
Definition I1 (m : machine) : Prop :=
  lockedRound m <> None <-> lockedBlock m <> None.

(** The condition of step 1 of the algorithm [preVote]: the machine is
    locked and the builder knows a polka at the height of the machine
    whose round is greater than the locked round. *)
Definition polkaAboveLock (m : machine) : Prop :=
  exists lr polka,
    lockedRound m = Some lr
    /\ fst (queryPolka m) = Some polka
    /\ lr < block.Polka_Round polka.

(** No polka at the round of the machine: the builder has no polka at
    the height of the machine, or its highest one is of another round. *)
Definition noPolkaAtRound (m : machine) : Prop :=
  forall polka,
    fst (queryPolka m) = Some polka -> block.Polka_Round polka <> round m.

(** No commit for a block at the height of the machine. *)
Definition noBlockCommit (m : machine) : Prop :=
  forall commit,
    fst (queryCommit m) = Some commit ->
    block.Polka_Block (block.Commit_Polka commit) = None.

(** The two occasions on which [waitForCommit] advances the round:
    [m1] is the machine once the vote of the transition, if any, is in
    the builder. *)
Definition roundAdvance (t : Transition) (m m1 : machine) : Prop :=
  (exists v commit,
      t = PreCommitted v
      /\ insertPreCommit v m = (true, m1)
      /\ fst (queryCommit m1) = Some commit
      /\ block.Polka_Block (block.Commit_Polka commit) = None
      /\ block.Polka_Round (block.Commit_Polka commit) = round m)
  \/ (t = TimedOut
      /\ m1 = m
      /\ exists r, snd (queryCommit m) = Some r).

(** [m1] is [m] up to the contents of the builders: what an [Insert]
    leaves of the machine. *)
Definition sameButBuilders (m m1 : machine) : Prop :=
  state m1 = state m /\ height m1 = height m /\ round m1 = round m
  /\ lockedRound m1 = lockedRound m /\ lockedBlock m1 = lockedBlock m
  /\ consensusThreshold m1 = consensusThreshold m.

(** The ways in which a call of [Transition] on [m] ends when it
    returns: with no action, or in one of the four procedures, run on
    the machine once the vote of the transition, if any, is in its
    builder. *)
Inductive handled (m : machine) : machine * option Action -> Prop :=
| handled_none (m1 : machine) :
    sameButBuilders m m1 -> handled m (m1, None)
| handled_preVote (sb : option block.SignedBlock) :
    handled m (preVote sb (set_state WaitingForPolka m))
| handled_preCommit (m1 : machine) :
    sameButBuilders m m1 ->
    handled m (preCommit (set_state WaitingForCommit m1))
| handled_exit (m1 : machine) :
    sameButBuilders m m1 -> handled m (checkCommonExitConditions m1)
| handled_advance (m1 : machine) :
    sameButBuilders m m1 -> handled m (advanceRound m1).

(** The declared variants of the two interface types. *)
Definition declaredState (s : State) : Prop := s <> OtherState.
Definition declaredTransition (t : Transition) : Prop := t <> OtherTransition.

End Machine.

(** ** A vote aggregator to run the machine on

  Modelled from the spec: the code of [block.PolkaBuilder] and
  [block.CommitBuilder] is not among the sources.  This aggregator
  follows section 4.1 of the spec: it keeps the first vote of a
  signatory at a (height, round) and reports any other as not new; a
  round qualifies when it holds at least [threshold] votes; a round
  has a decision when at least [threshold] of its votes agree on one
  block choice (a block, or nil); of several rounds the highest is
  reported.  As scenario 3 of the spec and the test
  [commit.Polka.Block == nil] of [waitForCommit] require, a decision
  on nil is reported by both builders. *)
Module aggregator.

Definition SignedBlock_eqb (a b : block.SignedBlock) : bool :=
  (block.SignedBlock_Height a =? block.SignedBlock_Height b)
  && (block.SignedBlock_Hash a =? block.SignedBlock_Hash b)
  && (block.SignedBlock_Signatory a =? block.SignedBlock_Signatory b).

Definition choice_eqb (a b : option block.SignedBlock) : bool :=
  match a, b with
  | Some x, Some y => SignedBlock_eqb x y
  | None, None => true
  | _, _ => false
  end.

Section Votes.

Variable Vote : Type.
Variable voteHeight : Vote -> block.Height.
Variable voteRound : Vote -> block.Round.
Variable voteSignatory : Vote -> block.Signatory.
Variable voteChoice : Vote -> option block.SignedBlock.

Definition sameSlot (v w : Vote) : bool :=
  (voteHeight v =? voteHeight w)
  && (voteRound v =? voteRound w)
  && (voteSignatory v =? voteSignatory w).

(** Modelled from the spec: [Insert] keeps the first vote of a signatory
    at a (height, round) and reports any later one as not new. *)
Definition Insert (votes : list Vote) (v : Vote) : bool * list Vote :=
  if existsb (sameSlot v) votes then (false, votes) else (true, v :: votes).

Definition votesAt (votes : list Vote) (h : block.Height) (r : block.Round)
    : list Vote :=
  filter (fun v => (voteHeight v =? h) && (voteRound v =? r)) votes.

Definition agreeing (vs : list Vote) (c : option block.SignedBlock)
    : list Vote :=
  filter (fun v => choice_eqb c (voteChoice v)) vs.

Definition quorumAt (votes : list Vote) (h : block.Height) (threshold : Z)
    (r : block.Round) : bool :=
  threshold <=? Z.of_nat (List.length (votesAt votes h r)).

(** The votes of a decision at (h, r), if there is one: those that
    agree with the first vote whose choice reaches the threshold. *)
Definition decisionAt (votes : list Vote) (h : block.Height) (threshold : Z)
    (r : block.Round) : option (Vote * list Vote) :=
  let vs := votesAt votes h r in
  match find (fun v =>
                threshold <=? Z.of_nat (List.length (agreeing vs (voteChoice v))))
             vs with
  | Some v => Some (v, agreeing vs (voteChoice v))
  | None => None
  end.

Definition rounds (votes : list Vote) (h : block.Height) : list block.Round :=
  map voteRound (filter (fun v => voteHeight v =? h) votes).

Definition highest (p : block.Round -> bool) (rs : list block.Round)
    : option block.Round :=
  fold_right
    (fun r acc =>
       if p r
       then match acc with
            | Some r' => Some (Z.max r r')
            | None => Some r
            end
       else acc)
    None rs.

Definition isSome {A : Type} (o : option A) : bool :=
  match o with Some _ => true | None => false end.

Definition highestDecision (votes : list Vote) (h : block.Height)
    (threshold : Z) : option (block.Round * (Vote * list Vote)) :=
  match highest (fun r => isSome (decisionAt votes h threshold r))
                (rounds votes h) with
  | Some r =>
      match decisionAt votes h threshold r with
      | Some d => Some (r, d)
      | None => None
      end
  | None => None
  end.

Definition highestQuorum (votes : list Vote) (h : block.Height)
    (threshold : Z) : option block.Round :=
  highest (quorumAt votes h threshold) (rounds votes h).

End Votes.

Definition preVoteHeight (v : block.SignedPreVote) : block.Height :=
  block.PreVote_Height (block.SignedPreVote_PreVote v).
Definition preVoteRound (v : block.SignedPreVote) : block.Round :=
  block.PreVote_Round (block.SignedPreVote_PreVote v).
Definition preVoteChoice (v : block.SignedPreVote) : option block.SignedBlock :=
  block.PreVote_Block (block.SignedPreVote_PreVote v).

Definition preCommitPolka (v : block.SignedPreCommit) : block.Polka :=
  block.PreCommit_Polka (block.SignedPreCommit_PreCommit v).
Definition preCommitHeight (v : block.SignedPreCommit) : block.Height :=
  block.Polka_Height (preCommitPolka v).
Definition preCommitRound (v : block.SignedPreCommit) : block.Round :=
  block.Polka_Round (preCommitPolka v).
Definition preCommitChoice (v : block.SignedPreCommit)
    : option block.SignedBlock :=
  block.Polka_Block (preCommitPolka v).

Definition PolkaBuilder := list block.SignedPreVote.
Definition CommitBuilder := list block.SignedPreCommit.

(** Modelled from the spec: the polka of the highest round at [h] in
    which [threshold] prevotes agree, and the highest round at [h] that
    holds [threshold] prevotes. *)
Definition Polka (pb : PolkaBuilder) (h : block.Height) (threshold : Z)
    : option block.Polka * option block.Round :=
  (match highestDecision _ preVoteHeight preVoteRound preVoteChoice
           pb h threshold with
   | Some (r, (v, vs)) =>
       Some (block.mkPolka (preVoteChoice v) r h
               (map block.SignedPreVote_Signature vs)
               (map block.SignedPreVote_Signatory vs))
   | None => None
   end,
   highestQuorum _ preVoteHeight preVoteRound pb h threshold).

(** Modelled from the spec: the commit of the highest round at [h] in
    which [threshold] precommits agree, and the highest round at [h]
    that holds [threshold] precommits. *)
Definition Commit (cb : CommitBuilder) (h : block.Height) (threshold : Z)
    : option block.Commit * option block.Round :=
  (match highestDecision _ preCommitHeight preCommitRound preCommitChoice
           cb h threshold with
   | Some (r, (v, vs)) =>
       Some (block.mkCommit
               (block.mkPolka (preCommitChoice v) r h
                  (block.Polka_Signatures (preCommitPolka v))
                  (block.Polka_Signatories (preCommitPolka v)))
               (map block.SignedPreCommit_Signature vs)
               (map block.SignedPreCommit_Signatory vs))
   | None => None
   end,
   highestQuorum _ preCommitHeight preCommitRound cb h threshold).

#[global] Instance polkaBuilder_ops : block.PolkaBuilder PolkaBuilder := {
  PolkaBuilder_Insert :=
    Insert _ preVoteHeight preVoteRound block.SignedPreVote_Signatory;
  PolkaBuilder_Polka := Polka
}.

#[global] Instance commitBuilder_ops : block.CommitBuilder CommitBuilder := {
  CommitBuilder_Insert :=
    Insert _ preCommitHeight preCommitRound block.SignedPreCommit_Signatory;
  CommitBuilder_Commit := Commit
}.

End aggregator.

(** ** The setting of the scenarios of the spec: four validators,
  threshold three, the machine running on the aggregator above *)
Module scenario.

Import aggregator.

Definition Machine := @machine PolkaBuilder CommitBuilder.

Definition B : block.SignedBlock := block.mkSignedBlock 0 11 1.
Definition B' : block.SignedBlock := block.mkSignedBlock 0 22 2.

(** The prevote of validator [who] for [choice] at (h, r). *)
Definition prevote (who : block.Signatory) (choice : option block.SignedBlock)
    (h : block.Height) (r : block.Round) : block.SignedPreVote :=
  block.mkSignedPreVote (block.mkPreVote choice h r) who (100 + who).

(** The precommit of validator [who] over a polka for [choice] at (h, r). *)
Definition precommit (who : block.Signatory)
    (choice : option block.SignedBlock)
    (h : block.Height) (r : block.Round) : block.SignedPreCommit :=
  block.mkSignedPreCommit
    (block.mkPreCommit (block.mkPolka choice r h [] [])) who (200 + who).

Definition start : Machine := NewMachine WaitingForPropose [] [] 3.

(** Scenario 1 of the spec: proposal, three prevotes, three precommits. *)
Definition happyPath : list Transition :=
  [ Proposed (Some B);
    PreVoted (prevote 1 (Some B) 0 0);
    PreVoted (prevote 2 (Some B) 0 0);
    PreVoted (prevote 3 (Some B) 0 0);
    PreCommitted (precommit 1 (Some B) 0 0);
    PreCommitted (precommit 2 (Some B) 0 0);
    PreCommitted (precommit 3 (Some B) 0 0) ].

(** Scenario 3 of the spec: time-out, three prevotes for nil, three
    precommits over the nil polka. *)
Definition nilRound : list Transition :=
  [ TimedOut;
    PreVoted (prevote 1 None 0 0);
    PreVoted (prevote 2 None 0 0);
    PreVoted (prevote 3 None 0 0);
    PreCommitted (precommit 1 None 0 0);
    PreCommitted (precommit 2 None 0 0);
    PreCommitted (precommit 3 None 0 0) ].

(** The machine after a run, when the run does not panic. *)
Definition after (ts : list Transition) (m : Machine) : Machine :=
  match run ts m with
  | Returned (m', _) => m'
  | Panicked _ => m
  end.

(** The machine once some votes are in its builders. *)
Definition withPreVotes (vs : list block.SignedPreVote) (m : Machine) : Machine :=
  fold_left (fun m v => snd (insertPreVote v m)) vs m.

Definition withPreCommits (vs : list block.SignedPreCommit) (m : Machine)
    : Machine :=
  fold_left (fun m v => snd (insertPreCommit v m)) vs m.

(** After the proposal and the three prevotes of scenario 1: the machine
    waits for the commit, locked on [B] at round 0. *)
Definition locked : Machine := after (firstn 4 happyPath) start.

(** Scenario 5: locked on [B] at round 0, with three prevotes for [B']
    at round 2 in the builder. *)
Definition unlockable : Machine :=
  withPreVotes
    [prevote 1 (Some B') 0 2; prevote 2 (Some B') 0 2; prevote 3 (Some B') 0 2]
    locked.

(** Scenario 4: locked on [B] at round 0, with three prevotes that do
    not agree at round 1 in the builder. *)
Definition skippable : Machine :=
  withPreVotes
    [prevote 1 (Some B) 0 1; prevote 2 (Some B') 0 1; prevote 3 None 0 1]
    locked.

(** Scenario 1 with its last precommit in the builder and the exit
    conditions not yet checked. *)
Definition commitReady : Machine :=
  withPreCommits [precommit 3 (Some B) 0 0] (after (firstn 6 happyPath) start).

(** Scenario 1 with the proposal made and the three prevotes in the
    builder. *)
Definition polkaReady : Machine :=
  withPreVotes
    [prevote 1 (Some B) 0 0; prevote 2 (Some B) 0 0; prevote 3 (Some B) 0 0]
    (after [Proposed (Some B)] start).

(** Scenario 3 before its last precommit. *)
Definition nilCommitPending : Machine := after (firstn 6 nilRound) start.

(** Votes of height 1, round 2 that arrive while the machine is at
    height 0; the machine then commits [B] (scenario 1), and receives a
    proposal at height 1.  It waits for a polka at height 1, round 0,
    with a quorum of prevotes at round 2 in its builder. *)
Definition B1 : block.SignedBlock := block.mkSignedBlock 1 33 1.

Definition early : list Transition :=
  [ PreVoted (prevote 1 None 1 2);
    PreVoted (prevote 2 None 1 2);
    PreVoted (prevote 3 None 1 2) ].

Definition stalled : Machine :=
  after (early ++ happyPath ++ [Proposed (Some B1)]) start.

Definition repeated : block.SignedPreVote := prevote 1 None 1 2.

End scenario.

(** ** The result of a call of [Transition], by the kind of its action *)

(** A [Commit] action that carries a block. *)
Definition isBlockCommit (a : option Action) : bool :=
  match a with
  | Some (Commit c) =>
      match block.Polka_Block (block.Commit_Polka c) with
      | Some _ => true
      | None => false
      end
  | _ => false
  end.

(** The number of [Commit] actions that carry a block among the actions
    of a run. *)
Definition blockCommits (acts : list (option Action)) : Z :=
  Z.of_nat (List.length (filter isBlockCommit acts)).

Section Outcomes.

Context {PB CB : Type}.
Context `{block.PolkaBuilder PB} `{block.CommitBuilder CB}.

Definition lockKept (m m' : @machine PB CB) : Prop :=
  lockedRound m' = lockedRound m /\ lockedBlock m' = lockedBlock m.

Definition lockCleared (m' : @machine PB CB) : Prop :=
  lockedRound m' = None /\ lockedBlock m' = None.

(** The builder reports no round above that of the machine. *)
Definition noLaterRound (r : option block.Round) (m : @machine PB CB) : Prop :=
  forall r', r = Some r' -> r' <= round m.

(** How the machine [m'] after a call stands to the machine [m] before
    it, for each kind of action that the call returns: no action; the
    [PreVote] of [preVote]; the [PreCommit] of [preCommit]; the [Commit]
    of a block by [checkCommonExitConditions]; the [Commit] of the round
    advance of [waitForCommit]. *)
Inductive outcome (m m' : @machine PB CB) : option Action -> Prop :=
| outcome_silent :
    state m' = state m -> height m' = height m -> round m' = round m ->
    lockKept m m' ->
    outcome m m' None
| outcome_prevote (blk : option block.SignedBlock) :
    (state m' = state m \/ state m' = WaitingForPolka) ->
    height m' = height m -> round m <= round m' ->
    (lockKept m m' \/ lockCleared m') ->
    (lockedRound m' <> None -> blk = lockedBlock m') ->
    (lockedRound m' = None ->
     forall b, blk = Some b -> block.SignedBlock_Height b = height m') ->
    outcome m m'
      (Some (PreVote (block.mkPreVote blk (height m') (round m'))))
| outcome_precommit (p : block.Polka) :
    state m' = WaitingForCommit ->
    height m' = height m -> round m <= round m' ->
    (forall b, block.Polka_Block p = Some b ->
               lockedRound m' = Some (block.Polka_Round p)
               /\ lockedBlock m' = Some b) ->
    (block.Polka_Block p = None ->
     lockCleared m'
     \/ (lockKept m m' /\ p = block.emptyPolka (height m') (round m'))) ->
    outcome m m' (Some (PreCommit (block.mkPreCommit p)))
| outcome_commit (c : block.Commit) (b : block.SignedBlock) :
    block.Polka_Block (block.Commit_Polka c) = Some b ->
    (exists cb pcr,
        block.CommitBuilder_Commit cb (height m) (consensusThreshold m)
        = (Some c, pcr)) ->
    state m' = WaitingForPropose ->
    height m' = block.inc (block.Polka_Height (block.Commit_Polka c)) ->
    round m' = 0 ->
    lockCleared m' ->
    outcome m m' (Some (Commit c))
| outcome_advance :
    state m' = WaitingForPropose ->
    height m' = height m -> round m' = block.inc (round m) ->
    lockKept m m' ->
    outcome m m'
      (Some (Commit (block.commitOver
                       (block.emptyPolka (height m') (round m'))))).

(** The transitions of a run are all of a declared variant. *)
Definition declaredRun (ts : list Transition) : Prop :=
  Forall declaredTransition ts.

End Outcomes.

(** More machines on the aggregator. *)
Module scenario2.

Import scenario.

(** After a time-out of the propose step, with three precommits over a
    nil polka of round 1 in the builder. *)
Definition precommitsAhead : Machine :=
  withPreCommits
    [precommit 1 None 0 1; precommit 2 None 0 1; precommit 3 None 0 1]
    (after [TimedOut] start).

(** After a time-out of the propose step, with three prevotes of round
    0 that do not agree in the builder. *)
Definition splitVotes : Machine :=
  withPreVotes
    [prevote 1 (Some B) 0 0; prevote 2 (Some B') 0 0; prevote 3 None 0 0]
    (after [TimedOut] start).

(** Three precommits over a nil polka of the largest round reach a new
    machine, which skips to that round; then the round times out. *)
Definition lastRound : list Transition :=
  [ PreCommitted (precommit 1 None 0 block.maxInt64);
    PreCommitted (precommit 2 None 0 block.maxInt64);
    PreCommitted (precommit 3 None 0 block.maxInt64);
    TimedOut ].

(** The machine before the time-out: it waits for the commit at height
    0, at the largest round. *)
Definition atLastRound : Machine := after (firstn 3 lastRound) start.

(** A machine whose lock is broken: a round without a block. *)
Definition uncoupled : Machine :=
  mkMachine WaitingForPropose 0 0 (Some 0) None [] [] 3.

End scenario2.

(** * Properties of the machine *)

(** ** The increment of an [int64] *)

Lemma wrap64_range (z : Z) :
  block.minInt64 <= block.wrap64 z <= block.maxInt64.
Proof.
  unfold block.wrap64, block.minInt64, block.maxInt64.
  pose proof (Z.mod_pos_bound (z + 2 ^ 63) (2 ^ 64) ltac:(lia)). lia.
Qed.

Lemma wrap64_id (z : Z) :
  block.minInt64 <= z <= block.maxInt64 -> block.wrap64 z = z.
Proof.
  unfold block.wrap64, block.minInt64, block.maxInt64. intros Hz.
  rewrite Z.mod_small by lia. lia.
Qed.

Lemma wrap64_add_l (a b : Z) :
  block.wrap64 (block.wrap64 a + b) = block.wrap64 (a + b).
Proof.
  unfold block.wrap64.
  replace ((a + 2 ^ 63) mod 2 ^ 64 - 2 ^ 63 + b + 2 ^ 63)
    with ((a + 2 ^ 63) mod 2 ^ 64 + b) by lia.
  rewrite Zplus_mod_idemp_l.
  replace (a + 2 ^ 63 + b) with (a + b + 2 ^ 63) by lia. reflexivity.
Qed.

Lemma inc_range (x : Z) :
  block.minInt64 <= block.inc x <= block.maxInt64.
Proof. apply wrap64_range. Qed.

(** Below the largest value the increment is that of the integers. *)
Lemma inc_below_max (x : Z) :
  block.minInt64 <= x < block.maxInt64 -> block.inc x = x + 1.
Proof.
  intros Hx. apply wrap64_id.
  unfold block.minInt64, block.maxInt64 in *. lia.
Qed.

(** At the largest value it wraps around to the smallest. *)
Lemma inc_maxInt64 : block.inc block.maxInt64 = block.minInt64.
Proof. reflexivity. Qed.

Section MachineProperties.

Context {PB CB : Type}.
Context `{block.PolkaBuilder PB} `{block.CommitBuilder CB}.

Local Abbreviation machine := (@machine PB CB).

(** ** Frame facts: what a query looks at *)

Lemma queryPolka_set_round (r : block.Round) (m : machine) :
  queryPolka (set_round r m) = queryPolka m.
Proof. reflexivity. Qed.

Lemma queryPolka_set_state (s : State) (m : machine) :
  queryPolka (set_state s m) = queryPolka m.
Proof. reflexivity. Qed.

Lemma insertPreVote_frame (v : block.SignedPreVote) (m m1 : machine) (isNew : bool) :
  insertPreVote v m = (isNew, m1) ->
  state m1 = state m /\ height m1 = height m /\ round m1 = round m
  /\ lockedRound m1 = lockedRound m /\ lockedBlock m1 = lockedBlock m
  /\ commitBuilder m1 = commitBuilder m
  /\ consensusThreshold m1 = consensusThreshold m.
Proof.
  unfold insertPreVote.
  destruct (block.PolkaBuilder_Insert (polkaBuilder m) v) as [b pb].
  intros E; inversion E; subst; cbn; repeat split.
Qed.

Lemma insertPreCommit_frame (v : block.SignedPreCommit) (m m1 : machine) (isNew : bool) :
  insertPreCommit v m = (isNew, m1) ->
  state m1 = state m /\ height m1 = height m /\ round m1 = round m
  /\ lockedRound m1 = lockedRound m /\ lockedBlock m1 = lockedBlock m
  /\ polkaBuilder m1 = polkaBuilder m
  /\ consensusThreshold m1 = consensusThreshold m.
Proof.
  unfold insertPreCommit.
  destruct (block.CommitBuilder_Insert (commitBuilder m) v) as [b cb].
  intros E; inversion E; subst; cbn; repeat split.
Qed.

(** ** [unlockOnPolka]: the first step of [preVote] *)

Lemma unlockOnPolka_frame (m : machine) :
  state (unlockOnPolka m) = state m
  /\ height (unlockOnPolka m) = height m
  /\ round (unlockOnPolka m) = round m
  /\ polkaBuilder (unlockOnPolka m) = polkaBuilder m
  /\ commitBuilder (unlockOnPolka m) = commitBuilder m
  /\ consensusThreshold (unlockOnPolka m) = consensusThreshold m.
Proof.
  unfold unlockOnPolka.
  destruct (lockedRound m) as [lr|]; [|repeat split].
  destruct (fst (queryPolka m)) as [polka|]; [|repeat split].
  destruct (lr <? block.Polka_Round polka); repeat split.
Qed.

Lemma unlockOnPolka_unlocks (m : machine) :
  polkaAboveLock m ->
  lockedRound (unlockOnPolka m) = None /\ lockedBlock (unlockOnPolka m) = None.
Proof.
  intros (lr & polka & Hlr & Hp & Hlt).
  unfold unlockOnPolka. rewrite Hlr, Hp.
  apply Z.ltb_lt in Hlt. rewrite Hlt. split; reflexivity.
Qed.

Lemma unlockOnPolka_keeps (m : machine) :
  ~ polkaAboveLock m -> unlockOnPolka m = m.
Proof.
  intros Hn. unfold unlockOnPolka.
  destruct (lockedRound m) as [lr|] eqn:Hlr; [|reflexivity].
  destruct (fst (queryPolka m)) as [polka|] eqn:Hp; [|reflexivity].
  destruct (lr <? block.Polka_Round polka) eqn:Hlt; [|reflexivity].
  exfalso. apply Hn. exists lr, polka. apply Z.ltb_lt in Hlt. auto.
Qed.

Lemma polkaAboveLock_dec (m : machine) :
  polkaAboveLock m \/ ~ polkaAboveLock m.
Proof.
  unfold polkaAboveLock.
  destruct (lockedRound m) as [lr|].
  2:{ right. intros (lr & p & E & _). discriminate. }
  destruct (fst (queryPolka m)) as [polka|].
  2:{ right. intros (lr' & p & _ & E & _). discriminate. }
  destruct (Z_lt_dec lr (block.Polka_Round polka)) as [Hlt|Hge].
  - left. exists lr, polka. auto.
  - right. intros (lr' & p & E1 & E2 & Hlt).
    inversion E1; inversion E2; subst. contradiction.
Qed.

(** ** C1 *)

(** C1.  In [checkCommonExitConditions], when the commit builder yields
    a commit with a non-nil block at the height of the machine, the
    machine goes to [WaitingForPropose] at height + 1 and round 0, with
    [lockedRound] and [lockedBlock] cleared, and a [Commit] action
    carrying that commit is returned.  Nothing is assumed of the polka
    builder or of the rounds the builders report: the test comes before
    those of the round skips.  The [+ 1] is that of the code, on an
    [int64]: height + 1 below the largest height. *)
Theorem checkCommonExitConditions_commit
    (m : machine) (commit : block.Commit) (r : option block.Round)
    (b : block.SignedBlock) :
  queryCommit m = (Some commit, r) ->
  block.Polka_Block (block.Commit_Polka commit) = Some b ->
  block.Polka_Height (block.Commit_Polka commit) = height m ->
  checkCommonExitConditions m =
    (mkMachine WaitingForPropose (block.inc (height m)) 0 None None
       (polkaBuilder m) (commitBuilder m) (consensusThreshold m),
     Some (Commit commit))
  /\ (block.minInt64 <= height m < block.maxInt64 ->
      block.inc (height m) = height m + 1).
Proof.
  intros Hq Hb Hh. split; [|apply inc_below_max].
  unfold checkCommonExitConditions. rewrite Hq.
  unfold blockCommit. rewrite Hb. cbn. rewrite Hh. reflexivity.
Qed.

(** ** C2 *)

(** C2.  [preVote] on an optional proposed block: if the machine is
    locked and the polka of the builder at the height of the machine has
    a round greater than [lockedRound], the lock is cleared, otherwise
    it is kept; then, a machine that is still locked returns a [PreVote]
    for [lockedBlock]; one that is not returns a [PreVote] for the
    proposed block when there is one and its [Height] is that of the
    machine, and a [PreVote] for nil otherwise.  The [PreVote] always
    carries the height and the round of the machine, and nothing but
    the lock is changed. *)
Theorem preVote_spec
    (proposedBlock : option block.SignedBlock) (m m' : machine)
    (a : option Action) :
  preVote proposedBlock m = (m', a) ->
  (polkaAboveLock m -> lockedRound m' = None /\ lockedBlock m' = None)
  /\ (~ polkaAboveLock m ->
      lockedRound m' = lockedRound m /\ lockedBlock m' = lockedBlock m)
  /\ (lockedRound m' <> None ->
      a = Some (PreVote (block.mkPreVote (lockedBlock m') (height m) (round m))))
  /\ (lockedRound m' = None ->
      forall b, proposedBlock = Some b ->
      block.SignedBlock_Height b = height m ->
      a = Some (PreVote (block.mkPreVote (Some b) (height m) (round m))))
  /\ (lockedRound m' = None ->
      (proposedBlock = None
       \/ exists b, proposedBlock = Some b
                    /\ block.SignedBlock_Height b <> height m) ->
      a = Some (PreVote (block.mkPreVote None (height m) (round m))))
  /\ (exists pv, a = Some (PreVote pv)
                 /\ block.PreVote_Height pv = height m
                 /\ block.PreVote_Round pv = round m)
  /\ state m' = state m /\ height m' = height m /\ round m' = round m
  /\ polkaBuilder m' = polkaBuilder m /\ commitBuilder m' = commitBuilder m
  /\ consensusThreshold m' = consensusThreshold m.
Proof.
  intros E.
  destruct (unlockOnPolka_frame m) as (Fs & Fh & Fr & Fp & Fc & Ft).
  assert (Em : m' = unlockOnPolka m).
  { unfold preVote in E.
    destruct (lockedRound (unlockOnPolka m)); [congruence|].
    destruct proposedBlock as [b|]; [|congruence].
    destruct (block.SignedBlock_Height b =? height (unlockOnPolka m)); congruence. }
  subst m'.
  split; [apply unlockOnPolka_unlocks|].
  split; [intros Hn; rewrite (unlockOnPolka_keeps m Hn); auto|].
  unfold preVote in E. rewrite Fh, Fr in E.
  destruct (lockedRound (unlockOnPolka m)) as [lr|] eqn:Hlr;
    [|destruct proposedBlock as [b|];
      [destruct (block.SignedBlock_Height b =? height m) eqn:Hb;
       [apply Z.eqb_eq in Hb|apply Z.eqb_neq in Hb]|]];
    inversion E; subst a;
    repeat split; auto; try congruence;
    try (eexists; repeat split; fail).
  intros _ [Hnone | (b' & Eb & Hne)]; [discriminate|].
  inversion Eb; subst. contradiction.
Qed.

(** ** C3 *)

(** C3.  [preCommit]: when the polka of the builder at the height of the
    machine has a block, the machine locks on the round and the block of
    that polka and returns a [PreCommit] for it; when it has none, the
    lock is cleared and a [PreCommit] for that polka is returned; when
    the builder has no polka, the lock is left as it is and the
    [PreCommit] carries an empty polka (no block, no evidence) at the
    height and round of the machine. *)
Theorem preCommit_spec (m m' : machine) (a : option Action) :
  preCommit m = (m', a) ->
  (forall polka b,
      fst (queryPolka m) = Some polka ->
      block.Polka_Block polka = Some b ->
      lockedRound m' = Some (block.Polka_Round polka)
      /\ lockedBlock m' = block.Polka_Block polka
      /\ a = Some (PreCommit (block.mkPreCommit polka)))
  /\ (forall polka,
      fst (queryPolka m) = Some polka ->
      block.Polka_Block polka = None ->
      lockedRound m' = None /\ lockedBlock m' = None
      /\ a = Some (PreCommit (block.mkPreCommit polka)))
  /\ (fst (queryPolka m) = None ->
      lockedRound m' = lockedRound m /\ lockedBlock m' = lockedBlock m
      /\ a = Some (PreCommit (block.mkPreCommit
                    (block.mkPolka None (round m) (height m) [] []))))
  /\ state m' = state m /\ height m' = height m /\ round m' = round m
  /\ polkaBuilder m' = polkaBuilder m /\ commitBuilder m' = commitBuilder m
  /\ consensusThreshold m' = consensusThreshold m.
Proof.
  unfold preCommit.
  destruct (fst (queryPolka m)) as [polka|] eqn:Hp.
  - destruct (block.Polka_Block polka) as [b|] eqn:Hb;
      intros E; inversion E; subst; cbn;
      repeat split; intros; try congruence.
  - intros E; inversion E; subst.
    repeat split; intros; try congruence.
Qed.

(** ** The shape of a call of [Transition] *)

Lemma sameButBuilders_refl (m : machine) : sameButBuilders m m.
Proof. repeat split. Qed.

Lemma insertPreVote_same (v : block.SignedPreVote) (m m1 : machine) (isNew : bool) :
  insertPreVote v m = (isNew, m1) -> sameButBuilders m m1.
Proof.
  intros E. destruct (insertPreVote_frame v m m1 isNew E) as (?&?&?&?&?&?&?).
  repeat split; assumption.
Qed.

Lemma insertPreCommit_same (v : block.SignedPreCommit) (m m1 : machine) (isNew : bool) :
  insertPreCommit v m = (isNew, m1) -> sameButBuilders m m1.
Proof.
  intros E. destruct (insertPreCommit_frame v m m1 isNew E) as (?&?&?&?&?&?&?).
  repeat split; assumption.
Qed.

Create HintDb machine.
#[local] Hint Resolve sameButBuilders_refl insertPreVote_same
  insertPreCommit_same : machine.
#[local] Hint Constructors handled : machine.

Lemma waitForPropose_handled (t : Transition) (m : machine)
    (r : machine * option Action) :
  waitForPropose t m = Returned r -> handled m r.
Proof.
  destruct t as [sb|v|v| |]; cbn; try discriminate.
  - intros E; inversion E; subst. constructor.
  - destruct (insertPreVote v m) as [isNew m1] eqn:Ei.
    intros E; inversion E; subst. eauto with machine.
  - destruct (insertPreCommit v m) as [isNew m1] eqn:Ei.
    intros E; inversion E; subst. eauto with machine.
  - intros E; inversion E; subst. constructor.
Qed.

Lemma waitForPolka_handled (t : Transition) (m : machine)
    (r : machine * option Action) :
  waitForPolka t m = Returned r -> handled m r.
Proof.
  destruct t as [sb|v|v| |]; cbn; try discriminate.
  - intros E; inversion E; subst. eauto with machine.
  - destruct (insertPreVote v m) as [isNew m1] eqn:Ei.
    destruct isNew; cbn.
    + destruct (fst (queryPolka m1)) as [polka|];
        [destruct (block.Polka_Round polka =? round m1)|];
        intros E; inversion E; subst; eauto with machine.
    + intros E; inversion E; subst. eauto with machine.
  - destruct (insertPreCommit v m) as [isNew m1] eqn:Ei.
    destruct isNew; cbn; intros E; inversion E; subst; eauto with machine.
  - destruct (snd (queryPolka m));
      intros E; inversion E; subst; eauto with machine.
Qed.

Lemma waitForCommit_handled (t : Transition) (m : machine)
    (r : machine * option Action) :
  waitForCommit t m = Returned r -> handled m r.
Proof.
  destruct t as [sb|v|v| |]; cbn; try discriminate.
  - intros E; inversion E; subst. eauto with machine.
  - destruct (insertPreVote v m) as [isNew m1] eqn:Ei.
    intros E; inversion E; subst. eauto with machine.
  - destruct (insertPreCommit v m) as [isNew m1] eqn:Ei.
    destruct isNew; cbn.
    + destruct (fst (queryCommit m1)) as [commit|];
        [destruct (block.Polka_Block (block.Commit_Polka commit));
         [|destruct (block.Polka_Round (block.Commit_Polka commit) =? round m1)]|];
        intros E; inversion E; subst; eauto with machine.
    + intros E; inversion E; subst. eauto with machine.
  - destruct (snd (queryCommit m));
      intros E; inversion E; subst; eauto with machine.
Qed.

(** [Transition] hands the call to the procedure of the state of the
    machine once its pre-condition holds. *)
Lemma machine_Transition_dispatch (t : Transition) (m : machine) :
  lockCoupled m = true ->
  machine_Transition t m =
    match state m with
    | WaitingForPropose => waitForPropose t m
    | WaitingForPolka => waitForPolka t m
    | WaitingForCommit => waitForCommit t m
    | OtherState => Panicked "unexpected state type"
    end.
Proof.
  unfold lockCoupled, machine_Transition.
  destruct (lockedRound m), (lockedBlock m); intros E;
    try discriminate; reflexivity.
Qed.

Lemma machine_Transition_checks (t : Transition) (m : machine)
    (r : machine * option Action) :
  machine_Transition t m = Returned r -> lockCoupled m = true.
Proof.
  unfold lockCoupled, machine_Transition.
  destruct (lockedRound m), (lockedBlock m); intros E;
    try discriminate; reflexivity.
Qed.

Lemma machine_Transition_handled (t : Transition) (m : machine)
    (r : machine * option Action) :
  machine_Transition t m = Returned r -> handled m r.
Proof.
  intros E. pose proof (machine_Transition_checks t m r E) as Hc.
  rewrite (machine_Transition_dispatch t m Hc) in E.
  destruct (state m); try discriminate;
    eauto using waitForPropose_handled, waitForPolka_handled,
                waitForCommit_handled.
Qed.

(** ** What the four procedures do to the lock, the state, the height
    and the round *)

Lemma I1_lockCoupled (m : machine) : I1 m <-> lockCoupled m = true.
Proof.
  unfold I1, lockCoupled.
  destruct (lockedRound m), (lockedBlock m); split; intros E;
    try reflexivity; try discriminate;
    try (split; congruence).
  - destruct E as [E _]. exfalso. apply E; congruence.
  - destruct E as [_ E]. exfalso. apply E; congruence.
Qed.

Lemma I1_same (m m1 : machine) :
  lockedRound m1 = lockedRound m -> lockedBlock m1 = lockedBlock m ->
  I1 m -> I1 m1.
Proof. unfold I1. intros -> ->. auto. Qed.

Lemma I1_unlocked (m : machine) :
  lockedRound m = None -> lockedBlock m = None -> I1 m.
Proof. unfold I1. intros -> ->. tauto. Qed.

Lemma preVote_fst (sb : option block.SignedBlock) (m : machine) :
  fst (preVote sb m) = unlockOnPolka m.
Proof.
  unfold preVote.
  destruct (lockedRound (unlockOnPolka m)); [reflexivity|].
  destruct sb as [b|]; [|reflexivity].
  destruct (block.SignedBlock_Height b =? height (unlockOnPolka m)); reflexivity.
Qed.

Lemma unlockOnPolka_I1 (m : machine) : I1 m -> I1 (unlockOnPolka m).
Proof.
  intros Hi. destruct (polkaAboveLock_dec m) as [Hu|Hn].
  - destruct (unlockOnPolka_unlocks m Hu). apply I1_unlocked; assumption.
  - rewrite (unlockOnPolka_keeps m Hn). assumption.
Qed.

Lemma preCommit_frame (m : machine) :
  state (fst (preCommit m)) = state m
  /\ height (fst (preCommit m)) = height m
  /\ round (fst (preCommit m)) = round m.
Proof.
  unfold preCommit.
  destruct (fst (queryPolka m)) as [polka|]; [|repeat split].
  destruct (block.Polka_Block polka); repeat split.
Qed.

Lemma preCommit_I1 (m : machine) : I1 m -> I1 (fst (preCommit m)).
Proof.
  intros Hi. unfold preCommit.
  destruct (fst (queryPolka m)) as [polka|]; [|assumption].
  destruct (block.Polka_Block polka); cbn.
  - unfold I1; cbn. split; congruence.
  - apply I1_unlocked; reflexivity.
Qed.

Lemma blockCommit_Some (c : option block.Commit) (commit : block.Commit) :
  blockCommit c = Some commit ->
  c = Some commit
  /\ block.Polka_Block (block.Commit_Polka commit) <> None.
Proof.
  unfold blockCommit. destruct c as [c0|]; [|discriminate].
  destruct (block.Polka_Block (block.Commit_Polka c0)) eqn:Hb; [|discriminate].
  intros E; inversion E; subst. split; congruence.
Qed.

Lemma blockCommit_None (c : option block.Commit) :
  blockCommit c = None <->
  (forall commit, c = Some commit ->
     block.Polka_Block (block.Commit_Polka commit) = None).
Proof.
  unfold blockCommit. destruct c as [c0|].
  - destruct (block.Polka_Block (block.Commit_Polka c0)) eqn:Hb; split.
    + discriminate.
    + intros E. specialize (E c0 eq_refl). congruence.
    + intros _ commit E. inversion E; subst. assumption.
    + reflexivity.
  - split; [intros _ commit E; discriminate|reflexivity].
Qed.

Lemma laterRound_Some (r : option block.Round) (m : machine) (r' : block.Round) :
  laterRound r m = Some r' <-> r = Some r' /\ round m < r'.
Proof.
  unfold laterRound. destruct r as [x|].
  - destruct (round m <? x) eqn:Hlt.
    + apply Z.ltb_lt in Hlt. split.
      * intros E; inversion E; subst. auto.
      * intros [E _]. assumption.
    + apply Z.ltb_ge in Hlt. split; [discriminate|].
      intros [E Hr]. inversion E; subst. lia.
  - split; [discriminate|]. intros [E _]. discriminate.
Qed.

(** The outcomes of [checkCommonExitConditions], by the branch taken. *)
Lemma checkCommonExitConditions_cases (m : machine) :
  (exists commit,
      blockCommit (fst (queryCommit m)) = Some commit
      /\ checkCommonExitConditions m =
         (mkMachine WaitingForPropose
            (block.inc (block.Polka_Height (block.Commit_Polka commit)))
            0 None None
            (polkaBuilder m) (commitBuilder m) (consensusThreshold m),
          Some (Commit commit)))
  \/ (exists r',
      blockCommit (fst (queryCommit m)) = None
      /\ laterRound (snd (queryPolka m)) m = Some r'
      /\ checkCommonExitConditions m = preVote None (set_round r' m))
  \/ (exists r',
      blockCommit (fst (queryCommit m)) = None
      /\ laterRound (snd (queryPolka m)) m = None
      /\ laterRound (snd (queryCommit m)) m = Some r'
      /\ checkCommonExitConditions m =
         preCommit (set_round r' (set_state WaitingForCommit m)))
  \/ (blockCommit (fst (queryCommit m)) = None
      /\ laterRound (snd (queryPolka m)) m = None
      /\ laterRound (snd (queryCommit m)) m = None
      /\ checkCommonExitConditions m = (m, None)).
Proof.
  unfold checkCommonExitConditions.
  destruct (queryCommit m) as [c pcr]; cbn [fst snd].
  destruct (blockCommit c) as [commit|].
  { left. exists commit. split; reflexivity. }
  right.
  destruct (queryPolka m) as [p pvr]; cbn [fst snd].
  destruct (laterRound pvr m) as [r'|].
  { left. exists r'. repeat split. }
  right.
  destruct (laterRound pcr m) as [r'|].
  { left. exists r'. repeat split. }
  right. repeat split.
Qed.

Lemma checkCommonExitConditions_I1 (m : machine) :
  I1 m -> I1 (fst (checkCommonExitConditions m)).
Proof.
  intros Hi.
  destruct (checkCommonExitConditions_cases m)
    as [(c & _ & ->) | [(r' & _ & _ & ->) | [(r' & _ & _ & _ & ->) | (_ & _ & _ & ->)]]];
    cbn [fst].
  - apply I1_unlocked; reflexivity.
  - rewrite preVote_fst. apply unlockOnPolka_I1.
    apply (I1_same m); [reflexivity|reflexivity|assumption].
  - apply preCommit_I1. apply (I1_same m); [reflexivity|reflexivity|assumption].
  - assumption.
Qed.

Lemma checkCommonExitConditions_declared (m : machine) :
  declaredState (state m) ->
  declaredState (state (fst (checkCommonExitConditions m))).
Proof.
  intros Hd.
  destruct (checkCommonExitConditions_cases m)
    as [(c & _ & ->) | [(r' & _ & _ & ->) | [(r' & _ & _ & _ & ->) | (_ & _ & _ & ->)]]];
    cbn [fst].
  - discriminate.
  - rewrite preVote_fst.
    destruct (unlockOnPolka_frame (set_round r' m)) as (-> & _). assumption.
  - destruct (preCommit_frame (set_round r' (set_state WaitingForCommit m)))
      as (-> & _). discriminate.
  - assumption.
Qed.

(** How the height and the round of [m'] stand to those of [m], below
    the largest height: the height is kept and the round is not lower,
    or the height is one more and the round is 0. *)
Lemma checkCommonExitConditions_progress (m : machine) :
  (forall commit r,
      queryCommit m = (Some commit, r) ->
      block.Polka_Height (block.Commit_Polka commit) = height m) ->
  block.minInt64 <= height m < block.maxInt64 ->
  let m' := fst (checkCommonExitConditions m) in
  (height m' = height m /\ round m <= round m')
  \/ (height m' = height m + 1 /\ round m' = 0).
Proof.
  intros Hh Hm.
  destruct (checkCommonExitConditions_cases m)
    as [(c & Hc & ->) | [(r' & _ & Hr & ->) | [(r' & _ & _ & Hr & ->) | (_ & _ & _ & ->)]]];
    cbn [fst].
  - right. cbn. apply blockCommit_Some in Hc. destruct Hc as [Hc _].
    destruct (queryCommit m) as [c0 r0] eqn:Hq. cbn in Hc. subst c0.
    rewrite (Hh c r0 eq_refl). split; [apply inc_below_max; exact Hm|reflexivity].
  - left. rewrite preVote_fst.
    destruct (unlockOnPolka_frame (set_round r' m)) as (_ & -> & -> & _).
    apply laterRound_Some in Hr. cbn. split; [reflexivity|lia].
  - left.
    destruct (preCommit_frame (set_round r' (set_state WaitingForCommit m)))
      as (_ & -> & ->).
    apply laterRound_Some in Hr. cbn. split; [reflexivity|lia].
  - left. split; [reflexivity|lia].
Qed.

(** ** The same, for a whole call of [Transition] *)

Lemma machine_Transition_in_state (t : Transition) (m : machine) :
  I1 m ->
  (state m = WaitingForPropose -> machine_Transition t m = waitForPropose t m)
  /\ (state m = WaitingForPolka -> machine_Transition t m = waitForPolka t m)
  /\ (state m = WaitingForCommit -> machine_Transition t m = waitForCommit t m).
Proof.
  intros Hi. apply I1_lockCoupled in Hi.
  rewrite (machine_Transition_dispatch t m Hi).
  repeat split; intros ->; reflexivity.
Qed.

Lemma sameButBuilders_I1 (m m1 : machine) :
  sameButBuilders m m1 -> I1 m -> I1 m1.
Proof. intros (_ & _ & _ & Hr & Hb & _). apply I1_same; assumption. Qed.

Lemma advanceRound_I1 (m : machine) : I1 m -> I1 (fst (advanceRound m)).
Proof. apply I1_same; reflexivity. Qed.

Lemma handled_I1 (m : machine) (r : machine * option Action) :
  I1 m -> handled m r -> I1 (fst r).
Proof.
  intros Hi Hh. destruct Hh as [m1 Hs|sb|m1 Hs|m1 Hs|m1 Hs].
  - apply (sameButBuilders_I1 m); assumption.
  - rewrite preVote_fst. apply unlockOnPolka_I1.
    apply (I1_same m); [reflexivity|reflexivity|assumption].
  - apply preCommit_I1. apply (I1_same m1); [reflexivity|reflexivity|].
    apply (sameButBuilders_I1 m); assumption.
  - apply checkCommonExitConditions_I1.
    apply (sameButBuilders_I1 m); assumption.
  - apply advanceRound_I1. apply (sameButBuilders_I1 m); assumption.
Qed.

Lemma handled_declared (m : machine) (r : machine * option Action) :
  declaredState (state m) -> handled m r -> declaredState (state (fst r)).
Proof.
  intros Hd Hh. destruct Hh as [m1 Hs|sb|m1 Hs|m1 Hs|m1 Hs].
  - destruct Hs as (Es & _). cbn. rewrite Es. assumption.
  - rewrite preVote_fst.
    destruct (unlockOnPolka_frame (set_state WaitingForPolka m)) as (-> & _).
    discriminate.
  - destruct (preCommit_frame (set_state WaitingForCommit m1)) as (-> & _).
    discriminate.
  - apply checkCommonExitConditions_declared.
    destruct Hs as (Es & _). rewrite Es. assumption.
  - discriminate.
Qed.

Lemma handled_progress (m : machine) (r : machine * option Action) :
  (forall (cb : CB) (h : block.Height) (t : Z) (commit : block.Commit)
          (pcr : option block.Round),
      block.CommitBuilder_Commit cb h t = (Some commit, pcr) ->
      block.Polka_Height (block.Commit_Polka commit) = h) ->
  block.minInt64 <= height m < block.maxInt64 ->
  block.minInt64 <= round m < block.maxInt64 ->
  handled m r ->
  (height (fst r) = height m /\ round m <= round (fst r))
  \/ (height (fst r) = height m + 1 /\ round (fst r) = 0).
Proof.
  intros Hb Mh Mr Hh. destruct Hh as [m1 Hs|sb|m1 Hs|m1 Hs|m1 Hs].
  - destruct Hs as (_ & Eh & Er & _). cbn. left. lia.
  - rewrite preVote_fst.
    destruct (unlockOnPolka_frame (set_state WaitingForPolka m))
      as (_ & -> & -> & _).
    cbn. left. lia.
  - destruct (preCommit_frame (set_state WaitingForCommit m1))
      as (_ & -> & ->).
    destruct Hs as (_ & Eh & Er & _). cbn. left. lia.
  - destruct Hs as (_ & Eh & Er & _). rewrite <- Eh, <- Er.
    apply checkCommonExitConditions_progress.
    + intros commit pcr. apply Hb.
    + rewrite Eh. exact Mh.
  - destruct Hs as (_ & Eh & Er & _). cbn. left.
    rewrite Er, Eh. rewrite (inc_below_max (round m) Mr). lia.
Qed.

Lemma waitForPropose_returns (t : Transition) (m : machine) :
  declaredTransition t -> exists r, waitForPropose t m = Returned r.
Proof.
  intros Hd. destruct t as [sb|v|v| |]; cbn; [eauto| | |eauto|].
  - destruct (insertPreVote v m); eauto.
  - destruct (insertPreCommit v m); eauto.
  - exfalso. apply Hd. reflexivity.
Qed.

Lemma waitForPolka_returns (t : Transition) (m : machine) :
  declaredTransition t -> exists r, waitForPolka t m = Returned r.
Proof.
  intros Hd. destruct t as [sb|v|v| |]; cbn; [eauto| | | |].
  - destruct (insertPreVote v m) as [isNew m1].
    destruct isNew; cbn; [|eauto].
    destruct (fst (queryPolka m1)) as [polka|]; [|eauto].
    destruct (block.Polka_Round polka =? round m1); eauto.
  - destruct (insertPreCommit v m) as [isNew m1].
    destruct isNew; cbn; eauto.
  - destruct (snd (queryPolka m)); eauto.
  - exfalso. apply Hd. reflexivity.
Qed.

Lemma waitForCommit_returns (t : Transition) (m : machine) :
  declaredTransition t -> exists r, waitForCommit t m = Returned r.
Proof.
  intros Hd. destruct t as [sb|v|v| |]; cbn; [eauto| | | |].
  - destruct (insertPreVote v m); eauto.
  - destruct (insertPreCommit v m) as [isNew m1].
    destruct isNew; cbn; [|eauto].
    destruct (fst (queryCommit m1)) as [commit|]; [|eauto].
    destruct (block.Polka_Block (block.Commit_Polka commit)); [eauto|].
    destruct (block.Polka_Round (block.Commit_Polka commit) =? round m1); eauto.
  - destruct (snd (queryCommit m)); eauto.
  - exfalso. apply Hd. reflexivity.
Qed.

(** ** C4 *)

(** C4.  Lock coupling is an invariant of the machine: from a machine
    on which [lockedRound] is set iff [lockedBlock] is set, after every
    sequence of [Transition] calls (every call of the sequence having
    returned), [lockedRound] is set iff [lockedBlock] is set. *)
Theorem lock_coupling_reachable
    (ts : list Transition) (m m' : machine) (acts : list (option Action)) :
  I1 m -> run ts m = Returned (m', acts) -> I1 m'.
Proof.
  revert m m' acts. induction ts as [|t ts IH]; intros m m' acts Hi; cbn.
  - intros E; inversion E; subst. assumption.
  - destruct (machine_Transition t m) as [[m1 a]|msg] eqn:Et; [|discriminate].
    destruct (run ts m1) as [[m2 acts']|msg] eqn:Er; [|discriminate].
    intros E; inversion E; subst.
    apply (IH m1 m' acts'); [|assumption].
    apply (handled_I1 m (m1, a) Hi).
    apply (machine_Transition_handled t); assumption.
Qed.

(** ** C9 *)

(** C9.  On a machine in one of the three declared states that satisfies
    I1, [Transition] on one of the four declared transitions returns: it
    does not panic. *)
Theorem machine_Transition_no_panic (t : Transition) (m : machine) :
  declaredState (state m) -> I1 m -> declaredTransition t ->
  exists (m' : machine) (a : option Action),
    machine_Transition t m = Returned (m', a).
Proof.
  intros Hs Hi Ht. apply I1_lockCoupled in Hi.
  rewrite (machine_Transition_dispatch t m Hi).
  destruct (state m) eqn:Es.
  - destruct (waitForPropose_returns t m Ht) as [[m' a] E]; eauto.
  - destruct (waitForPolka_returns t m Ht) as [[m' a] E]; eauto.
  - destruct (waitForCommit_returns t m Ht) as [[m' a] E]; eauto.
  - exfalso. apply Hs. reflexivity.
Qed.

(** ** C10 *)

(** C10, amended.  When the commit builder only returns commits whose
    [Height] is the height it was asked for, and the height and the
    round of the machine are below the largest [int64], so that no
    increment wraps around, then across a call of [Transition]: the
    height does not decrease; while the height is the same the round
    does not decrease; a round that decreases is set to 0 in a call that
    moves the machine to the next height; and so a machine at a round
    above 0 is found at round 0 only after a call that increased its
    height. *)
Theorem machine_Transition_progress
    (t : Transition) (m m' : machine) (a : option Action) :
  (forall (cb : CB) (h : block.Height) (thr : Z) (commit : block.Commit)
          (pcr : option block.Round),
      block.CommitBuilder_Commit cb h thr = (Some commit, pcr) ->
      block.Polka_Height (block.Commit_Polka commit) = h) ->
  block.minInt64 <= height m < block.maxInt64 ->
  block.minInt64 <= round m < block.maxInt64 ->
  machine_Transition t m = Returned (m', a) ->
  height m <= height m'
  /\ (height m' = height m -> round m <= round m')
  /\ (round m' < round m -> round m' = 0 /\ height m' = height m + 1)
  /\ (0 < round m -> round m' = 0 -> height m < height m').
Proof.
  intros Hb Mh Mr E.
  pose proof (handled_progress m (m', a) Hb Mh Mr
                (machine_Transition_handled t m (m', a) E)) as Hp.
  cbn [fst] in Hp. lia.
Qed.

(** ** C5 *)

(** C5.  When [waitForCommit] advances the round (on a new precommit
    with which the commit of the builder has no block and is of the
    round of the machine, or on a time-out when some round holds a
    quorum of precommits), it returns a [Commit] whose polka has the
    height of the machine, no block, and the round of the machine after
    the advance, which is the round before plus one (the [++] of the
    code, on an [int64]); the machine goes to [WaitingForPropose] and
    keeps its height.  On a machine in state
    [WaitingForCommit] that satisfies I1 this is the call of
    [Transition]. *)
Theorem waitForCommit_round_advance (t : Transition) (m m1 : machine) :
  roundAdvance t m m1 ->
  exists (m' : machine) (commit : block.Commit),
    waitForCommit t m = Returned (m', Some (Commit commit))
    /\ block.Polka_Height (block.Commit_Polka commit) = height m
    /\ block.Polka_Block (block.Commit_Polka commit) = None
    /\ block.Polka_Round (block.Commit_Polka commit) = round m'
    /\ round m' = block.inc (round m)
    /\ state m' = WaitingForPropose
    /\ height m' = height m
    /\ commit = block.mkCommit
                  (block.mkPolka None (block.inc (round m)) (height m) [] [])
                  [] []
    /\ m' = set_round (block.inc (round m)) (set_state WaitingForPropose m1)
    /\ (I1 m -> state m = WaitingForCommit ->
        machine_Transition t m = Returned (m', Some (Commit commit)))
    /\ (block.minInt64 <= round m < block.maxInt64 ->
        block.inc (round m) = round m + 1).
Proof.
  intros A.
  assert (D : I1 m -> state m = WaitingForCommit ->
              machine_Transition t m = waitForCommit t m).
  { intros Hi Hs. apply (machine_Transition_in_state t m Hi). exact Hs. }
  revert D.
  destruct A as [(v & c & -> & Ei & Hc & Hb & Hr) | (-> & -> & r & Hq)]; intros D.
  - destruct (insertPreCommit_frame v m m1 true Ei) as (_ & Eh & Er & _).
    cbn [waitForCommit]. rewrite Ei. cbn [negb].
    rewrite Hc, Hb, Hr, <- Er, Z.eqb_refl.
    unfold advanceRound. cbn. rewrite Eh.
    do 2 eexists.
    split; [reflexivity|]. split; [reflexivity|]. split; [reflexivity|].
    split; [reflexivity|]. split; [reflexivity|]. split; [reflexivity|].
    split; [exact Eh|]. split; [reflexivity|]. split; [reflexivity|].
    split; [|apply inc_below_max].
    intros Hi Hs. rewrite (D Hi Hs). cbn [waitForCommit].
    rewrite Ei. cbn [negb]. rewrite Hc, Hb, Hr, <- Er, Z.eqb_refl.
    unfold advanceRound. cbn. rewrite Eh. reflexivity.
  - cbn [waitForCommit]. rewrite Hq.
    unfold advanceRound. cbn.
    do 2 eexists.
    split; [reflexivity|]. split; [reflexivity|]. split; [reflexivity|].
    split; [reflexivity|]. split; [reflexivity|]. split; [reflexivity|].
    split; [reflexivity|]. split; [reflexivity|]. split; [reflexivity|].
    split; [|apply inc_below_max].
    intros Hi Hs. rewrite (D Hi Hs). cbn [waitForCommit].
    rewrite Hq. reflexivity.
Qed.

(** ** C6 *)

(** C6, amended.  In [waitForPolka], on a [PreVoted] transition: when
    the vote was not new, the call returns no action and the machine is
    as it was but for its polka builder, the exit conditions not being
    checked; when the vote was new and the builder has no polka at the
    round of the machine, the call is that of
    [checkCommonExitConditions].  On a machine in state
    [WaitingForPolka] that satisfies I1, [waitForPolka] is the call of
    [Transition]. *)
Theorem waitForPolka_PreVoted
    (v : block.SignedPreVote) (m m1 : machine) (isNew : bool) :
  insertPreVote v m = (isNew, m1) ->
  (isNew = false -> waitForPolka (PreVoted v) m = Returned (m1, None))
  /\ (isNew = true -> noPolkaAtRound m1 ->
      waitForPolka (PreVoted v) m = Returned (checkCommonExitConditions m1))
  /\ sameButBuilders m m1
  /\ commitBuilder m1 = commitBuilder m
  /\ (I1 m -> state m = WaitingForPolka ->
      machine_Transition (PreVoted v) m = waitForPolka (PreVoted v) m).
Proof.
  intros Ei.
  assert (D : I1 m -> state m = WaitingForPolka ->
              machine_Transition (PreVoted v) m = waitForPolka (PreVoted v) m).
  { intros Hi Hs. apply (machine_Transition_in_state _ m Hi). exact Hs. }
  destruct (insertPreVote_frame v m m1 isNew Ei) as (?&?&?&?&?&?&?).
  split; [|split; [|split; [repeat split; assumption|split; assumption]]];
    cbn [waitForPolka]; rewrite Ei; intros ->; cbn [negb].
  - reflexivity.
  - intros Hn. destruct (fst (queryPolka m1)) as [polka|] eqn:Hp; [|reflexivity].
    destruct (block.Polka_Round polka =? round m1) eqn:Hr; [|reflexivity].
    apply Z.eqb_eq in Hr. exfalso. exact (Hn polka Hp Hr).
Qed.

(** ** C7 *)

(** C7.  When the builder has no commit for a block at the height of the
    machine and the polka builder reports a round [r'] with a quorum of
    prevotes above the round of the machine,
    [checkCommonExitConditions] sets the round to [r'] and is the call
    [preVote(nil)]: the state and the height are kept, and so is the
    lock unless [preVote] gives it up. *)
Theorem checkCommonExitConditions_prevote_skip
    (m : machine) (r' : block.Round) :
  noBlockCommit m -> snd (queryPolka m) = Some r' -> round m < r' ->
  checkCommonExitConditions m = preVote None (set_round r' m)
  /\ round (fst (checkCommonExitConditions m)) = r'
  /\ state (fst (checkCommonExitConditions m)) = state m
  /\ height (fst (checkCommonExitConditions m)) = height m
  /\ (~ polkaAboveLock m ->
      lockedRound (fst (checkCommonExitConditions m)) = lockedRound m
      /\ lockedBlock (fst (checkCommonExitConditions m)) = lockedBlock m)
  /\ (polkaAboveLock m ->
      lockedRound (fst (checkCommonExitConditions m)) = None
      /\ lockedBlock (fst (checkCommonExitConditions m)) = None)
  /\ polkaBuilder (fst (checkCommonExitConditions m)) = polkaBuilder m
  /\ commitBuilder (fst (checkCommonExitConditions m)) = commitBuilder m.
Proof.
  intros Hc Hq Hr.
  assert (E : checkCommonExitConditions m = preVote None (set_round r' m)).
  { destruct (checkCommonExitConditions_cases m)
      as [(c & Hb & _) | [(r2 & _ & Hl & ->) | [(r2 & _ & Hl & _) | (_ & Hl & _)]]].
    - apply blockCommit_Some in Hb. destruct Hb as [Hb Hn].
      exfalso. apply Hn. apply Hc. assumption.
    - apply laterRound_Some in Hl. destruct Hl as [Hl _].
      congruence.
    - assert (Hs : laterRound (snd (queryPolka m)) m = Some r')
        by (apply laterRound_Some; auto).
      congruence.
    - assert (Hs : laterRound (snd (queryPolka m)) m = Some r')
        by (apply laterRound_Some; auto).
      congruence. }
  rewrite E, preVote_fst.
  destruct (unlockOnPolka_frame (set_round r' m)) as (-> & -> & -> & -> & -> & _).
  repeat split.
  1, 2: match goal with
        | Hn : ~ polkaAboveLock _ |- _ =>
            rewrite (unlockOnPolka_keeps (set_round r' m) Hn); reflexivity
        end.
  all: match goal with
       | Hu : polkaAboveLock _ |- _ =>
           apply (unlockOnPolka_unlocks (set_round r' m) Hu)
       end.
Qed.

(** ** C8 *)

(** C8.  [waitForPropose] on [Proposed(sb)] sets the state to
    [WaitingForPolka] and is the call [preVote(sb)]; on [TimedOut] it
    sets the state to [WaitingForPolka] and is the call [preVote(nil)].
    In both, the machine that results is in [WaitingForPolka] with the
    height, the round and the builders it had.  On a machine in state
    [WaitingForPropose] that satisfies I1 these are the calls of
    [Transition]. *)
Theorem waitForPropose_Proposed_TimedOut
    (sb : option block.SignedBlock) (m : machine) :
  waitForPropose (Proposed sb) m
    = Returned (preVote sb (set_state WaitingForPolka m))
  /\ waitForPropose TimedOut m
    = Returned (preVote None (set_state WaitingForPolka m))
  /\ (forall proposedBlock : option block.SignedBlock,
      state (fst (preVote proposedBlock (set_state WaitingForPolka m)))
        = WaitingForPolka
      /\ height (fst (preVote proposedBlock (set_state WaitingForPolka m)))
        = height m
      /\ round (fst (preVote proposedBlock (set_state WaitingForPolka m)))
        = round m
      /\ polkaBuilder (fst (preVote proposedBlock (set_state WaitingForPolka m)))
        = polkaBuilder m
      /\ commitBuilder (fst (preVote proposedBlock (set_state WaitingForPolka m)))
        = commitBuilder m)
  /\ (I1 m -> state m = WaitingForPropose ->
      machine_Transition (Proposed sb) m
        = Returned (preVote sb (set_state WaitingForPolka m))
      /\ machine_Transition TimedOut m
        = Returned (preVote None (set_state WaitingForPolka m))).
Proof.
  split; [reflexivity|]. split; [reflexivity|]. split.
  - intros proposedBlock. rewrite preVote_fst.
    destruct (unlockOnPolka_frame (set_state WaitingForPolka m))
      as (-> & -> & -> & -> & -> & _).
    repeat split.
  - intros Hi Hs.
    rewrite (proj1 (machine_Transition_in_state (Proposed sb) m Hi) Hs).
    rewrite (proj1 (machine_Transition_in_state TimedOut m Hi) Hs).
    split; reflexivity.
Qed.

End MachineProperties.

(** * The machine on the aggregator: the scenarios of the spec *)

(** The aggregator answers a query at height [h] with a commit of that
    height. *)
Lemma aggregator_Commit_height
    (cb : aggregator.CommitBuilder) (h : block.Height) (thr : Z)
    (commit : block.Commit) (pcr : option block.Round) :
  block.CommitBuilder_Commit cb h thr = (Some commit, pcr) ->
  block.Polka_Height (block.Commit_Polka commit) = h.
Proof.
  cbn. unfold aggregator.Commit.
  destruct (aggregator.highestDecision _ aggregator.preCommitHeight
              aggregator.preCommitRound aggregator.preCommitChoice cb h thr)
    as [[r [v vs]]|]; intros E; inversion E; reflexivity.
Qed.

Lemma start_I1 : I1 scenario.start.
Proof. unfold I1. cbn. split; intros E; exfalso; exact (E eq_refl). Defined.

(** Scenario 1, at its last step: the commit of [B] at height 0 moves
    the machine to height 1, round 0, unlocked. *)
Lemma checkCommonExitConditions_commit_witness :
  exists commit : block.Commit,
    queryCommit scenario.commitReady = (Some commit, Some 0)
    /\ block.Polka_Block (block.Commit_Polka commit) = Some scenario.B
    /\ block.Polka_Height (block.Commit_Polka commit)
       = height scenario.commitReady
    /\ checkCommonExitConditions scenario.commitReady =
       (mkMachine WaitingForPropose 1 0 None None
          (polkaBuilder scenario.commitReady)
          (commitBuilder scenario.commitReady) 3,
        Some (Commit commit)).
Proof.
  eexists. split; [vm_compute; reflexivity|].
  split; [reflexivity|]. split; [reflexivity|].
  exact (proj1 (checkCommonExitConditions_commit scenario.commitReady _
                  (Some 0) scenario.B eq_refl eq_refl eq_refl)).
Defined.

(** Scenario 5: locked on [B] at round 0 with a polka for [B'] at round
    2, the machine gives up its lock and prevotes the proposed [B']. *)
Lemma preVote_spec_witness :
  polkaAboveLock scenario.unlockable
  /\ lockedRound (fst (preVote (Some scenario.B') scenario.unlockable)) = None
  /\ lockedBlock (fst (preVote (Some scenario.B') scenario.unlockable)) = None
  /\ snd (preVote (Some scenario.B') scenario.unlockable)
     = Some (PreVote (block.mkPreVote (Some scenario.B') 0 0)).
Proof.
  assert (U : polkaAboveLock scenario.unlockable).
  { do 2 eexists. split; [reflexivity|].
    split; [vm_compute; reflexivity|reflexivity]. }
  pose proof (preVote_spec (Some scenario.B') scenario.unlockable _ _
                (surjective_pairing _)) as (S1 & _ & _ & S4 & _).
  destruct (S1 U) as [L1 L2].
  split; [exact U|]. split; [exact L1|]. split; [exact L2|].
  exact (S4 L1 scenario.B' eq_refl eq_refl).
Defined.

(** Scenario 1, at the third prevote: the machine locks on [B] at round
    0 and precommits the polka. *)
Lemma preCommit_spec_witness :
  exists polka : block.Polka,
    fst (queryPolka scenario.polkaReady) = Some polka
    /\ block.Polka_Block polka = Some scenario.B
    /\ lockedRound (fst (preCommit scenario.polkaReady)) = Some 0
    /\ lockedBlock (fst (preCommit scenario.polkaReady)) = Some scenario.B
    /\ snd (preCommit scenario.polkaReady)
       = Some (PreCommit (block.mkPreCommit polka)).
Proof.
  eexists. split; [vm_compute; reflexivity|]. split; [reflexivity|].
  pose proof (preCommit_spec scenario.polkaReady _ _ (surjective_pairing _))
    as (S1 & _).
  destruct (S1 _ scenario.B eq_refl eq_refl) as (L1 & L2 & L3).
  split; [exact L1|]. split; [exact L2|]. exact L3.
Defined.

(** Scenario 1 as a whole keeps the lock coupled. *)
Lemma lock_coupling_reachable_witness :
  I1 scenario.start
  /\ (exists acts,
        run scenario.happyPath scenario.start
        = Returned (scenario.after scenario.happyPath scenario.start, acts))
  /\ I1 (scenario.after scenario.happyPath scenario.start).
Proof.
  split; [exact start_I1|].
  assert (R : exists acts,
             run scenario.happyPath scenario.start
             = Returned (scenario.after scenario.happyPath scenario.start, acts)).
  { eexists. vm_compute. reflexivity. }
  split; [exact R|].
  destruct R as [acts R].
  exact (lock_coupling_reachable scenario.happyPath scenario.start _ acts
           start_I1 R).
Defined.

(** Scenario 3, at its last precommit, and a time-out once that
    precommit is in the builder: the round goes from 0 to 1 and the
    commit that is returned is of round 1. *)
Lemma waitForCommit_round_advance_witness :
  roundAdvance (PreCommitted (scenario.precommit 3 None 0 0))
    scenario.nilCommitPending
    (snd (insertPreCommit (scenario.precommit 3 None 0 0)
            scenario.nilCommitPending))
  /\ waitForCommit (PreCommitted (scenario.precommit 3 None 0 0))
       scenario.nilCommitPending
     = Returned
         (set_round 1
            (set_state WaitingForPropose
               (snd (insertPreCommit (scenario.precommit 3 None 0 0)
                       scenario.nilCommitPending))),
          Some (Commit (block.mkCommit (block.mkPolka None 1 0 [] []) [] []))).
Proof.
  assert (A : roundAdvance (PreCommitted (scenario.precommit 3 None 0 0))
                scenario.nilCommitPending
                (snd (insertPreCommit (scenario.precommit 3 None 0 0)
                        scenario.nilCommitPending))).
  { left. do 2 eexists. split; [reflexivity|].
    split; [vm_compute; reflexivity|].
    split; [vm_compute; reflexivity|].
    split; reflexivity. }
  split; [exact A|].
  destruct (waitForCommit_round_advance _ _ _ A)
    as (m' & commit & E & _ & _ & _ & _ & _ & _ & Ec & Em & _).
  rewrite E, Ec, Em. reflexivity.
Defined.

(** A prevote that the builder has already: no action, and the machine
    is as it was. *)
Lemma waitForPolka_PreVoted_witness :
  insertPreVote scenario.repeated scenario.stalled = (false, scenario.stalled)
  /\ waitForPolka (PreVoted scenario.repeated) scenario.stalled
     = Returned (scenario.stalled, None).
Proof.
  assert (E : insertPreVote scenario.repeated scenario.stalled
              = (false, scenario.stalled)) by (vm_compute; reflexivity).
  destruct (waitForPolka_PreVoted _ _ _ _ E) as (S1 & _).
  split; [exact E|exact (S1 eq_refl)].
Defined.

(** Scenario 4: with a quorum of prevotes at round 1 and a polka at
    round 0 only, the machine locked at round 0 moves to round 1 and
    keeps its lock, its state and its height. *)
Lemma checkCommonExitConditions_prevote_skip_witness :
  noBlockCommit scenario.skippable
  /\ snd (queryPolka scenario.skippable) = Some 1
  /\ round scenario.skippable < 1
  /\ ~ polkaAboveLock scenario.skippable
  /\ round (fst (checkCommonExitConditions scenario.skippable)) = 1
  /\ state (fst (checkCommonExitConditions scenario.skippable))
     = WaitingForCommit
  /\ height (fst (checkCommonExitConditions scenario.skippable)) = 0
  /\ lockedRound (fst (checkCommonExitConditions scenario.skippable)) = Some 0
  /\ snd (checkCommonExitConditions scenario.skippable)
     = Some (PreVote (block.mkPreVote (Some scenario.B) 0 1)).
Proof.
  assert (N : noBlockCommit scenario.skippable).
  { intros commit E. vm_compute in E. discriminate E. }
  assert (Q : snd (queryPolka scenario.skippable) = Some 1)
    by (vm_compute; reflexivity).
  assert (R : round scenario.skippable < 1) by reflexivity.
  assert (U : ~ polkaAboveLock scenario.skippable).
  { intros (lr & p & E1 & E2 & Hlt).
    vm_compute in E1. vm_compute in E2.
    inversion E1; subst lr. inversion E2; subst p.
    vm_compute in Hlt. discriminate Hlt. }
  destruct (checkCommonExitConditions_prevote_skip scenario.skippable 1 N Q R)
    as (E & Sr & Ss & Sh & Sl & _).
  destruct (Sl U) as [L1 _].
  split; [exact N|]. split; [exact Q|]. split; [exact R|]. split; [exact U|].
  split; [exact Sr|]. split; [exact Ss|]. split; [exact Sh|].
  split; [exact L1|].
  rewrite E. vm_compute. reflexivity.
Defined.

(** Scenario 2: a time-out of the propose step makes the machine prevote
    nil and wait for a polka. *)
Lemma waitForPropose_Proposed_TimedOut_witness :
  I1 scenario.start
  /\ state scenario.start = WaitingForPropose
  /\ machine_Transition TimedOut scenario.start
     = Returned (set_state WaitingForPolka scenario.start,
                 Some (PreVote (block.mkPreVote None 0 0))).
Proof.
  split; [exact start_I1|]. split; [reflexivity|].
  destruct (waitForPropose_Proposed_TimedOut None scenario.start)
    as (_ & _ & _ & T).
  destruct (T start_I1 eq_refl) as (_ & E).
  rewrite E. reflexivity.
Defined.

(** The first time-out of the machine returns. *)
Lemma machine_Transition_no_panic_witness :
  declaredState (state scenario.start)
  /\ I1 scenario.start
  /\ declaredTransition TimedOut
  /\ exists (m' : scenario.Machine) (a : option Action),
       machine_Transition TimedOut scenario.start = Returned (m', a).
Proof.
  assert (S : declaredState (state scenario.start))
    by (intros E; discriminate E).
  assert (T : declaredTransition TimedOut) by (intros E; discriminate E).
  split; [exact S|]. split; [exact start_I1|]. split; [exact T|].
  exact (machine_Transition_no_panic TimedOut scenario.start S start_I1 T).
Defined.

(** Scenario 1, at its last precommit: the height goes from 0 to 1 and
    the round stays 0. *)
Lemma machine_Transition_progress_witness :
  exists (m' : scenario.Machine) (a : option Action),
    machine_Transition (PreCommitted (scenario.precommit 3 (Some scenario.B) 0 0))
      (scenario.after (firstn 6 scenario.happyPath) scenario.start)
    = Returned (m', a)
    /\ height m' = 1
    /\ height (scenario.after (firstn 6 scenario.happyPath) scenario.start)
       <= height m'
    /\ (round m'
        < round (scenario.after (firstn 6 scenario.happyPath) scenario.start) ->
        round m' = 0).
Proof.
  do 2 eexists.
  assert (E : machine_Transition
                (PreCommitted (scenario.precommit 3 (Some scenario.B) 0 0))
                (scenario.after (firstn 6 scenario.happyPath) scenario.start)
              = Returned
                  (scenario.after scenario.happyPath scenario.start,
                   Some (Commit
                           (block.mkCommit
                              (block.mkPolka (Some scenario.B) 0 0 [] [])
                              [203; 202; 201] [3; 2; 1]))))
    by (vm_compute; reflexivity).
  assert (R : block.minInt64 <= 0 < block.maxInt64)
    by (split; [discriminate|reflexivity]).
  destruct (machine_Transition_progress
              (PreCommitted (scenario.precommit 3 (Some scenario.B) 0 0))
              (scenario.after (firstn 6 scenario.happyPath) scenario.start)
              _ _ aggregator_Commit_height R R E)
    as (P1 & _ & P3 & _).
  split; [exact E|]. split; [reflexivity|]. split; [exact P1|].
  intros Hlt. exact (proj1 (P3 Hlt)).
Defined.

(** C6, as stated, fails.  Three prevotes of height 1, round 2 reach the
    machine while it is at height 0; it commits [B], moves to height 1
    and, on a proposal, waits for a polka at round 0.  When one of the
    three prevotes comes again it is not new: the call returns no action
    and the machine stays at round 0, while
    [checkCommonExitConditions] on the same machine moves it to round 2
    and returns a prevote. *)
Lemma waitForPolka_PreVoted_not_new_counterexample :
  (exists acts,
      run (scenario.early ++ scenario.happyPath
             ++ [Proposed (Some scenario.B1)]) scenario.start
      = Returned (scenario.stalled, acts))
  /\ state scenario.stalled = WaitingForPolka
  /\ insertPreVote scenario.repeated scenario.stalled
     = (false, scenario.stalled)
  /\ waitForPolka (PreVoted scenario.repeated) scenario.stalled
     = Returned (scenario.stalled, None)
  /\ machine_Transition (PreVoted scenario.repeated) scenario.stalled
     = Returned (scenario.stalled, None)
  /\ checkCommonExitConditions scenario.stalled
     = (set_round 2 scenario.stalled,
        Some (PreVote (block.mkPreVote None 1 2)))
  /\ waitForPolka (PreVoted scenario.repeated) scenario.stalled
     <> Returned (checkCommonExitConditions scenario.stalled).
Proof.
  split; [eexists; vm_compute; reflexivity|].
  split; [vm_compute; reflexivity|].
  split; [vm_compute; reflexivity|].
  split; [vm_compute; reflexivity|].
  split; [vm_compute; reflexivity|].
  split; [vm_compute; reflexivity|].
  vm_compute. intros E. discriminate E.
Qed.

(** C10, as stated, fails.  The aggregator returns commits of the
    height it is asked for.  Three precommits over a nil polka of round
    9223372036854775807 take a new machine to that round, where it waits
    for the commit; on the time-out the round is incremented and wraps
    around: the call keeps the height, 0, and leaves the round at
    -9223372036854775808. *)
Lemma machine_Transition_progress_wraps_counterexample :
  (forall (cb : aggregator.CommitBuilder) (h : block.Height) (thr : Z)
          (commit : block.Commit) (pcr : option block.Round),
      block.CommitBuilder_Commit cb h thr = (Some commit, pcr) ->
      block.Polka_Height (block.Commit_Polka commit) = h)
  /\ (exists acts,
        run scenario2.lastRound scenario.start
        = Returned (scenario.after scenario2.lastRound scenario.start, acts))
  /\ machine_Transition TimedOut scenario2.atLastRound
     = Returned (scenario.after scenario2.lastRound scenario.start,
                 Some (Commit (block.commitOver
                                 (block.emptyPolka 0 (-9223372036854775808)))))
  /\ height scenario2.atLastRound = 0
  /\ height (scenario.after scenario2.lastRound scenario.start) = 0
  /\ round scenario2.atLastRound = 9223372036854775807
  /\ round (scenario.after scenario2.lastRound scenario.start)
     = -9223372036854775808
  /\ round (scenario.after scenario2.lastRound scenario.start)
     < round scenario2.atLastRound.
Proof.
  split; [exact aggregator_Commit_height|].
  split; [eexists; vm_compute; reflexivity|].
  split; [vm_compute; reflexivity|].
  split; [vm_compute; reflexivity|].
  split; [vm_compute; reflexivity|].
  split; [vm_compute; reflexivity|].
  split; [vm_compute; reflexivity|].
  vm_compute. reflexivity.
Qed.

(** * More properties of the machine *)

Section MachineOutcomes.

Context {PB CB : Type}.
Context `{block.PolkaBuilder PB} `{block.CommitBuilder CB}.

Local Abbreviation machine := (@machine PB CB).

(** ** The result of each procedure *)

Lemma unlockOnPolka_lock (m : machine) :
  lockKept m (unlockOnPolka m) \/ lockCleared (unlockOnPolka m).
Proof.
  destruct (polkaAboveLock_dec m) as [Hu|Hn].
  - right. exact (unlockOnPolka_unlocks m Hu).
  - left. rewrite (unlockOnPolka_keeps m Hn). split; reflexivity.
Qed.

Lemma preVote_result (sb : option block.SignedBlock) (m : machine) :
  exists blk : option block.SignedBlock,
    preVote sb m
    = (unlockOnPolka m,
       Some (PreVote (block.mkPreVote blk (height m) (round m))))
    /\ (lockedRound (unlockOnPolka m) <> None ->
        blk = lockedBlock (unlockOnPolka m))
    /\ (lockedRound (unlockOnPolka m) = None ->
        forall b, blk = Some b -> block.SignedBlock_Height b = height m).
Proof.
  destruct (unlockOnPolka_frame m) as (_ & Fh & Fr & _).
  unfold preVote. rewrite Fh, Fr.
  destruct (lockedRound (unlockOnPolka m)) as [lr|] eqn:Hl.
  - eexists. split; [reflexivity|]. split; [reflexivity|discriminate].
  - destruct sb as [b|].
    + destruct (block.SignedBlock_Height b =? height m) eqn:Hb.
      * apply Z.eqb_eq in Hb. eexists. split; [reflexivity|].
        split; [intros E; contradiction|].
        intros _ b' E. inversion E; subst. exact Hb.
      * eexists. split; [reflexivity|].
        split; [intros E; contradiction|]. intros _ b' E. discriminate E.
    + eexists. split; [reflexivity|].
      split; [intros E; contradiction|]. intros _ b' E. discriminate E.
Qed.

Lemma preCommit_result (m : machine) :
  exists (p : block.Polka) (m' : machine),
    preCommit m = (m', Some (PreCommit (block.mkPreCommit p)))
    /\ state m' = state m /\ height m' = height m /\ round m' = round m
    /\ (forall b, block.Polka_Block p = Some b ->
                  lockedRound m' = Some (block.Polka_Round p)
                  /\ lockedBlock m' = Some b)
    /\ (block.Polka_Block p = None ->
        lockCleared m'
        \/ (lockKept m m' /\ p = block.emptyPolka (height m) (round m))).
Proof.
  unfold preCommit.
  destruct (fst (queryPolka m)) as [polka|].
  - destruct (block.Polka_Block polka) as [b|] eqn:Hb.
    + do 2 eexists. split; [reflexivity|].
      split; [reflexivity|]. split; [reflexivity|]. split; [reflexivity|].
      split.
      * intros b' E. rewrite Hb in E. inversion E; subst.
        split; reflexivity.
      * intros E. rewrite Hb in E. discriminate E.
    + do 2 eexists. split; [reflexivity|].
      split; [reflexivity|]. split; [reflexivity|]. split; [reflexivity|].
      split.
      * intros b' E. rewrite Hb in E. discriminate E.
      * intros _. left. split; reflexivity.
  - do 2 eexists. split; [reflexivity|].
    split; [reflexivity|]. split; [reflexivity|]. split; [reflexivity|].
    split.
    + intros b' E. discriminate E.
    + intros _. right. split; [split; reflexivity|reflexivity].
Qed.

(** The constructors of [outcome], with the action given by an
    equation. *)
Lemma outcome_prevote_eq (m m' : machine) (a : option Action)
    (blk : option block.SignedBlock) :
  a = Some (PreVote (block.mkPreVote blk (height m') (round m'))) ->
  (state m' = state m \/ state m' = WaitingForPolka) ->
  height m' = height m -> round m <= round m' ->
  (lockKept m m' \/ lockCleared m') ->
  (lockedRound m' <> None -> blk = lockedBlock m') ->
  (lockedRound m' = None ->
   forall b, blk = Some b -> block.SignedBlock_Height b = height m') ->
  outcome m m' a.
Proof. intros ->. apply outcome_prevote. Qed.

Lemma outcome_precommit_eq (m m' : machine) (a : option Action)
    (p : block.Polka) :
  a = Some (PreCommit (block.mkPreCommit p)) ->
  state m' = WaitingForCommit ->
  height m' = height m -> round m <= round m' ->
  (forall b, block.Polka_Block p = Some b ->
             lockedRound m' = Some (block.Polka_Round p)
             /\ lockedBlock m' = Some b) ->
  (block.Polka_Block p = None ->
   lockCleared m'
   \/ (lockKept m m' /\ p = block.emptyPolka (height m') (round m'))) ->
  outcome m m' a.
Proof. intros ->. apply outcome_precommit. Qed.

Lemma lockKept_trans (m m1 m' : machine) :
  lockKept m m1 -> lockKept m1 m' -> lockKept m m'.
Proof. unfold lockKept. intros [-> ->] [-> ->]. split; reflexivity. Qed.

Lemma sameButBuilders_lockKept (m m1 : machine) :
  sameButBuilders m m1 -> lockKept m m1.
Proof. intros (_ & _ & _ & Hr & Hb & _). split; assumption. Qed.

Lemma lock_after (m m1 m' : machine) :
  lockKept m m1 ->
  lockKept m1 m' \/ lockCleared m' ->
  lockKept m m' \/ lockCleared m'.
Proof.
  intros Hk [Hk'|Hc]; [left|right; exact Hc].
  exact (lockKept_trans m m1 m' Hk Hk').
Qed.

(** [preVote] run on [m1], a machine that has the height and the lock of
    [m] and is not at a lower round. *)
Lemma preVote_outcome (sb : option block.SignedBlock) (m m1 : machine) :
  (state m1 = state m \/ state m1 = WaitingForPolka) ->
  height m1 = height m -> round m <= round m1 -> lockKept m m1 ->
  outcome m (fst (preVote sb m1)) (snd (preVote sb m1)).
Proof.
  intros Hs Hh Hr Hk.
  destruct (preVote_result sb m1) as (blk & E & L1 & L2).
  destruct (unlockOnPolka_frame m1) as (Fs & Fh & Fr & _).
  rewrite E. cbn [fst snd].
  apply (outcome_prevote_eq m (unlockOnPolka m1) _ blk).
  - rewrite Fh, Fr. reflexivity.
  - rewrite Fs. exact Hs.
  - rewrite Fh. exact Hh.
  - rewrite Fr. exact Hr.
  - exact (lock_after m m1 _ Hk (unlockOnPolka_lock m1)).
  - exact L1.
  - rewrite Fh. exact L2.
Qed.

(** [preCommit] run on [m1], a machine in [WaitingForCommit] that has
    the height and the lock of [m] and is not at a lower round. *)
Lemma preCommit_outcome (m m1 : machine) :
  state m1 = WaitingForCommit ->
  height m1 = height m -> round m <= round m1 -> lockKept m m1 ->
  outcome m (fst (preCommit m1)) (snd (preCommit m1)).
Proof.
  intros Hs Hh Hr Hk.
  destruct (preCommit_result m1) as (p & m' & E & Fs & Fh & Fr & L1 & L2).
  rewrite E. cbn [fst snd].
  apply (outcome_precommit_eq m m' _ p).
  - reflexivity.
  - rewrite Fs. exact Hs.
  - rewrite Fh. exact Hh.
  - rewrite Fr. exact Hr.
  - exact L1.
  - intros Hb. destruct (L2 Hb) as [Hc|[Hk' Hp]].
    + left. exact Hc.
    + right. split; [exact (lockKept_trans m m1 m' Hk Hk')|].
      rewrite Fh, Fr. exact Hp.
Qed.

Lemma checkCommonExitConditions_outcome (m m1 : machine) :
  sameButBuilders m m1 ->
  outcome m (fst (checkCommonExitConditions m1))
    (snd (checkCommonExitConditions m1)).
Proof.
  intros Hs. pose proof (sameButBuilders_lockKept m m1 Hs) as Hk.
  destruct Hs as (Es & Eh & Er & _ & _ & Et).
  destruct (checkCommonExitConditions_cases m1)
    as [(c & Hc & ->) | [(r' & _ & Hl & ->) | [(r' & _ & _ & Hl & ->) | (_ & _ & _ & ->)]]];
    cbn [fst snd].
  - apply blockCommit_Some in Hc. destruct Hc as [Hc Hb].
    destruct (block.Polka_Block (block.Commit_Polka c)) as [b|] eqn:Eb;
      [|contradiction].
    apply (outcome_commit m _ c b Eb).
    + exists (commitBuilder m1), (snd (queryCommit m1)).
      rewrite <- Eh, <- Et. rewrite <- Hc. apply surjective_pairing.
    + reflexivity.
    + reflexivity.
    + reflexivity.
    + split; reflexivity.
  - apply laterRound_Some in Hl. destruct Hl as [_ Hl].
    apply preVote_outcome; cbn.
    + left. exact Es.
    + exact Eh.
    + lia.
    + exact Hk.
  - apply laterRound_Some in Hl. destruct Hl as [_ Hl].
    apply preCommit_outcome; cbn.
    + reflexivity.
    + exact Eh.
    + lia.
    + exact Hk.
  - apply outcome_silent; assumption.
Qed.

Lemma handled_outcome (m : machine) (r : machine * option Action) :
  handled m r -> outcome m (fst r) (snd r).
Proof.
  intros Hh. destruct Hh as [m1 Hs|sb|m1 Hs|m1 Hs|m1 Hs].
  - pose proof (sameButBuilders_lockKept m m1 Hs) as Hk.
    destruct Hs as (Es & Eh & Er & _). cbn [fst snd].
    apply outcome_silent; assumption.
  - apply preVote_outcome; cbn.
    + right. reflexivity.
    + reflexivity.
    + lia.
    + split; reflexivity.
  - pose proof (sameButBuilders_lockKept m m1 Hs) as Hk.
    destruct Hs as (Es & Eh & Er & _).
    apply preCommit_outcome; cbn.
    + reflexivity.
    + exact Eh.
    + lia.
    + exact Hk.
  - apply checkCommonExitConditions_outcome. exact Hs.
  - pose proof (sameButBuilders_lockKept m m1 Hs) as Hk.
    destruct Hs as (Es & Eh & Er & _).
    unfold advanceRound. cbn [fst snd].
    replace (height (set_state WaitingForPropose m1))
      with (height (set_round (round (set_state WaitingForPropose m1) + 1)
                      (set_state WaitingForPropose m1))) by reflexivity.
    apply outcome_advance; cbn.
    + reflexivity.
    + exact Eh.
    + rewrite Er. reflexivity.
    + exact Hk.
Qed.

Lemma machine_Transition_outcome (t : Transition) (m m' : machine)
    (a : option Action) :
  machine_Transition t m = Returned (m', a) -> outcome m m' a.
Proof.
  intros E.
  exact (handled_outcome m (m', a)
           (machine_Transition_handled t m (m', a) E)).
Qed.

(** ** When a call panics *)

Lemma waitFor_OtherTransition (m : machine) :
  waitForPropose OtherTransition m = Panicked "unexpected transition type"
  /\ waitForPolka OtherTransition m = Panicked "unexpected transition type"
  /\ waitForCommit OtherTransition m = Panicked "unexpected transition type".
Proof. repeat split. Qed.

Lemma lockCoupled_false_panics (t : Transition) (m : machine) :
  lockCoupled m = false -> exists msg, machine_Transition t m = Panicked msg.
Proof.
  unfold lockCoupled, machine_Transition.
  destruct (lockedRound m), (lockedBlock m); intros E;
    try discriminate E; eexists; reflexivity.
Qed.

(** X1.  [Transition] panics exactly when the machine breaks the lock
    coupling I1, or its state is not one of the three declared states,
    or the transition is not one of the four declared variants. *)
Theorem machine_Transition_panics_iff (t : Transition) (m : machine) :
  (exists msg, machine_Transition t m = Panicked msg)
  <-> (~ I1 m \/ state m = OtherState \/ t = OtherTransition).
Proof.
  destruct (lockCoupled m) eqn:Hc.
  - pose proof (proj2 (I1_lockCoupled m) Hc) as Hi.
    rewrite (machine_Transition_dispatch t m Hc).
    split.
    + intros [msg E].
      destruct (state m) eqn:Es; [| | |right; left; reflexivity];
        destruct t as [sb|v|v| |]; try (right; right; reflexivity); exfalso.
      all: match type of E with
           | waitForPropose ?t0 ?m0 = _ =>
               destruct (waitForPropose_returns t0 m0) as [r Er];
               [discriminate|congruence]
           | waitForPolka ?t0 ?m0 = _ =>
               destruct (waitForPolka_returns t0 m0) as [r Er];
               [discriminate|congruence]
           | waitForCommit ?t0 ?m0 = _ =>
               destruct (waitForCommit_returns t0 m0) as [r Er];
               [discriminate|congruence]
           end.
    + intros [Hn | [Es | Et]].
      * contradiction.
      * rewrite Es. eexists; reflexivity.
      * subst t. destruct (state m); eexists; reflexivity.
  - split.
    + intros _. left. intros Hi. apply I1_lockCoupled in Hi. congruence.
    + intros _. exact (lockCoupled_false_panics t m Hc).
Qed.

(** ** Runs *)

Lemma machine_Transition_returns (t : Transition) (m : machine) :
  declaredState (state m) -> I1 m -> declaredTransition t ->
  exists r, machine_Transition t m = Returned r.
Proof.
  intros Hs Hi Ht. apply I1_lockCoupled in Hi.
  rewrite (machine_Transition_dispatch t m Hi).
  destruct (state m) eqn:Es.
  - exact (waitForPropose_returns t m Ht).
  - exact (waitForPolka_returns t m Ht).
  - exact (waitForCommit_returns t m Ht).
  - exfalso. apply Hs. reflexivity.
Qed.

Lemma run_returns (ts : list Transition) (m : machine) :
  declaredState (state m) -> I1 m -> declaredRun ts ->
  exists (m' : machine) (acts : list (option Action)),
    run ts m = Returned (m', acts)
    /\ I1 m' /\ declaredState (state m')
    /\ List.length acts = List.length ts.
Proof.
  revert m. induction ts as [|t ts IH]; intros m Hs Hi Hd.
  - exists m, []. split; [reflexivity|].
    split; [exact Hi|]. split; [exact Hs|reflexivity].
  - inversion Hd as [|t' ts' Ht Hts]; subst.
    destruct (machine_Transition_returns t m Hs Hi Ht) as [[m1 a] E].
    pose proof (machine_Transition_handled t m (m1, a) E) as Hh.
    destruct (IH m1 (handled_declared m (m1, a) Hs Hh)
                 (handled_I1 m (m1, a) Hi Hh) Hts)
      as (m' & acts & Er & Hi' & Hs' & Hl).
    exists m', (a :: acts). cbn. rewrite E, Er.
    split; [reflexivity|]. split; [exact Hi'|]. split; [exact Hs'|].
    rewrite Hl. reflexivity.
Qed.

(** X2.  A machine made by [NewMachine] in a declared state goes through
    any sequence of declared transitions without a panic: every call of
    [Transition] of the run returns, with one (optional) action per
    transition, and the machine at the end is in a declared state and
    satisfies I1. *)
Theorem NewMachine_run_no_panic
    (s : State) (pb : PB) (cb : CB) (threshold : Z) (ts : list Transition) :
  declaredState s -> declaredRun ts ->
  exists (m' : machine) (acts : list (option Action)),
    run ts (NewMachine s pb cb threshold) = Returned (m', acts)
    /\ I1 m' /\ declaredState (state m')
    /\ List.length acts = List.length ts.
Proof.
  intros Hs Hd. apply run_returns.
  - exact Hs.
  - apply I1_unlocked; reflexivity.
  - exact Hd.
Qed.

(** ** What each kind of action tells of the machine *)

(** X3.  A call of [Transition] that returns no action leaves the state,
    the height, the round and the lock of the machine as they were. *)
Theorem machine_Transition_silent (t : Transition) (m m' : machine) :
  machine_Transition t m = Returned (m', None) ->
  state m' = state m /\ height m' = height m /\ round m' = round m
  /\ lockedRound m' = lockedRound m /\ lockedBlock m' = lockedBlock m.
Proof.
  intros E. pose proof (machine_Transition_outcome t m m' None E) as O.
  inversion O as [Hs Hh Hr [Hk1 Hk2]| | | |]. repeat split; assumption.
Qed.

(** X4.  A [PreVote] that [Transition] returns carries the height and
    the round of the machine after the call; the call has kept the
    height, has not lowered the round, and has kept or cleared the lock.
    When the machine is locked after the call the vote is for its
    locked block; when it is not, a vote for a block is for a block of
    the height of the machine. *)
Theorem machine_Transition_PreVote
    (t : Transition) (m m' : machine) (pv : block.PreVote) :
  machine_Transition t m = Returned (m', Some (PreVote pv)) ->
  block.PreVote_Height pv = height m'
  /\ block.PreVote_Round pv = round m'
  /\ height m' = height m /\ round m <= round m'
  /\ (lockKept m m' \/ lockCleared m')
  /\ (lockedRound m' <> None -> block.PreVote_Block pv = lockedBlock m')
  /\ (lockedRound m' = None ->
      forall b, block.PreVote_Block pv = Some b ->
                block.SignedBlock_Height b = height m').
Proof.
  intros E. pose proof (machine_Transition_outcome t m m' _ E) as O.
  inversion O as [|blk Hs Hh Hr Hl L1 L2 Ea| | |]. cbn.
  split; [reflexivity|]. split; [reflexivity|].
  split; [exact Hh|]. split; [exact Hr|]. split; [exact Hl|].
  split; [exact L1|exact L2].
Qed.

(** X5.  A [PreCommit] is returned only by a call that ends in
    [WaitingForCommit] at the same height.  When its polka has a block,
    the machine is locked on the round and the block of that polka after
    the call; when it has none, the lock is cleared, or it is kept and
    the polka is the empty polka at the height and round of the
    machine. *)
Theorem machine_Transition_PreCommit
    (t : Transition) (m m' : machine) (pc : block.PreCommit) :
  machine_Transition t m = Returned (m', Some (PreCommit pc)) ->
  state m' = WaitingForCommit
  /\ height m' = height m /\ round m <= round m'
  /\ (forall b, block.Polka_Block (block.PreCommit_Polka pc) = Some b ->
                lockedRound m'
                = Some (block.Polka_Round (block.PreCommit_Polka pc))
                /\ lockedBlock m' = Some b)
  /\ (block.Polka_Block (block.PreCommit_Polka pc) = None ->
      lockCleared m'
      \/ (lockKept m m'
          /\ block.PreCommit_Polka pc
             = block.emptyPolka (height m') (round m'))).
Proof.
  intros E. pose proof (machine_Transition_outcome t m m' _ E) as O.
  inversion O as [| |p Hs Hh Hr L1 L2 Ea| |]. cbn.
  split; [exact Hs|]. split; [exact Hh|]. split; [exact Hr|].
  split; [exact L1|exact L2].
Qed.

(** X6.  A [Commit] is returned only by a call that ends in
    [WaitingForPropose], and it is of one of two kinds.  With a block:
    the machine is at the height after that of the commit, at round 0,
    unlocked.  Without a block: the commit is the empty one at the
    height and round of the machine after the call, the height is kept,
    the round is one more, and the lock is kept.  "After" and "one
    more" are the [+ 1] and [++] of the code, on an [int64]. *)
Theorem machine_Transition_Commit
    (t : Transition) (m m' : machine) (c : block.Commit) :
  machine_Transition t m = Returned (m', Some (Commit c)) ->
  state m' = WaitingForPropose
  /\ ((exists b,
         block.Polka_Block (block.Commit_Polka c) = Some b
         /\ height m'
            = block.inc (block.Polka_Height (block.Commit_Polka c))
         /\ round m' = 0
         /\ lockCleared m')
      \/ (c = block.commitOver (block.emptyPolka (height m') (round m'))
          /\ height m' = height m
          /\ round m' = block.inc (round m)
          /\ lockKept m m')).
Proof.
  intros E. pose proof (machine_Transition_outcome t m m' _ E) as O.
  inversion O as [| | |c' b Hb Hq Hs Hh Hr Hl Ea|Hs Hh Hr Hl Ea].
  - subst c'. split; [exact Hs|]. left. exists b.
    split; [exact Hb|]. split; [exact Hh|]. split; [exact Hr|exact Hl].
  - split; [exact Hs|]. right.
    split; [reflexivity|]. split; [exact Hh|]. split; [exact Hr|exact Hl].
Qed.

(** X7.  The machine takes a lock only in a call that returns a
    [PreCommit] for a polka with a block, and the lock is then the round
    and the block of that polka; any other call keeps the lock or
    clears it. *)
Theorem machine_Transition_lock
    (t : Transition) (m m' : machine) (a : option Action) :
  machine_Transition t m = Returned (m', a) ->
  lockKept m m' \/ lockCleared m'
  \/ (exists p b,
        a = Some (PreCommit (block.mkPreCommit p))
        /\ block.Polka_Block p = Some b
        /\ lockedRound m' = Some (block.Polka_Round p)
        /\ lockedBlock m' = Some b).
Proof.
  intros E. pose proof (machine_Transition_outcome t m m' a E) as O.
  inversion O as [Hs Hh Hr Hk|blk Hs Hh Hr Hl L1 L2 Ea
                  |p Hs Hh Hr L1 L2 Ea|c b Hb Hq Hs Hh Hr Hl Ea
                  |Hs Hh Hr Hl Ea].
  - left. exact Hk.
  - destruct Hl as [Hk|Hc]; [left; exact Hk|right; left; exact Hc].
  - destruct (block.Polka_Block p) as [b|] eqn:Hb.
    + right. right. exists p, b. destruct (L1 b eq_refl) as [R1 R2].
      split; [reflexivity|]. split; [exact Hb|].
      split; [exact R1|exact R2].
    + destruct (L2 eq_refl) as [Hc|[Hk _]];
        [right; left; exact Hc|left; exact Hk].
  - right. left. exact Hl.
  - left. exact Hl.
Qed.

(** ** The builders across a call *)

Lemma returned_fst (r : machine * option Action) (m' : machine)
    (a : option Action) :
  Returned r = Returned (m', a) -> m' = fst r.
Proof. intros E. inversion E. reflexivity. Qed.

Lemma preVote_builders (sb : option block.SignedBlock) (m : machine) :
  polkaBuilder (fst (preVote sb m)) = polkaBuilder m
  /\ commitBuilder (fst (preVote sb m)) = commitBuilder m
  /\ consensusThreshold (fst (preVote sb m)) = consensusThreshold m.
Proof.
  rewrite preVote_fst.
  destruct (unlockOnPolka_frame m) as (_ & _ & _ & Fp & Fc & Ft).
  repeat split; assumption.
Qed.

Lemma preCommit_builders (m : machine) :
  polkaBuilder (fst (preCommit m)) = polkaBuilder m
  /\ commitBuilder (fst (preCommit m)) = commitBuilder m
  /\ consensusThreshold (fst (preCommit m)) = consensusThreshold m.
Proof.
  unfold preCommit.
  destruct (fst (queryPolka m)) as [polka|]; [|repeat split].
  destruct (block.Polka_Block polka); repeat split.
Qed.

Lemma checkCommonExitConditions_builders (m : machine) :
  polkaBuilder (fst (checkCommonExitConditions m)) = polkaBuilder m
  /\ commitBuilder (fst (checkCommonExitConditions m)) = commitBuilder m
  /\ consensusThreshold (fst (checkCommonExitConditions m))
     = consensusThreshold m.
Proof.
  destruct (checkCommonExitConditions_cases m)
    as [(c & _ & ->) | [(r' & _ & _ & ->) | [(r' & _ & _ & _ & ->) | (_ & _ & _ & ->)]]].
  - repeat split.
  - exact (preVote_builders None (set_round r' m)).
  - exact (preCommit_builders (set_round r' (set_state WaitingForCommit m))).
  - repeat split.
Qed.

Ltac builders_leaf :=
  let E := fresh "E" in
  intros E; rewrite (returned_fst _ _ _ E); clear E;
  match goal with
  | |- context [fst (preVote ?sb ?m1)] =>
      destruct (preVote_builders sb m1) as (-> & -> & ->)
  | |- context [fst (preCommit ?m1)] =>
      destruct (preCommit_builders m1) as (-> & -> & ->)
  | |- context [fst (checkCommonExitConditions ?m1)] =>
      destruct (checkCommonExitConditions_builders m1) as (-> & -> & ->)
  | _ => idtac
  end;
  cbn; repeat split.

(** X8.  Across a call of [Transition] the threshold is kept, and the
    builders change by the vote of the transition and by nothing else:
    in every state, a [PreVoted] leaves the polka builder as its
    [Insert] makes it, a [PreCommitted] does so for the commit builder,
    and the builders are otherwise as they were. *)
Theorem machine_Transition_builders
    (t : Transition) (m m' : machine) (a : option Action) :
  machine_Transition t m = Returned (m', a) ->
  consensusThreshold m' = consensusThreshold m
  /\ polkaBuilder m'
     = match t with
       | PreVoted v => snd (block.PolkaBuilder_Insert (polkaBuilder m) v)
       | _ => polkaBuilder m
       end
  /\ commitBuilder m'
     = match t with
       | PreCommitted v => snd (block.CommitBuilder_Insert (commitBuilder m) v)
       | _ => commitBuilder m
       end.
Proof.
  intros E. pose proof (machine_Transition_checks t m (m', a) E) as Hc.
  rewrite (machine_Transition_dispatch t m Hc) in E. revert E.
  destruct (state m); try discriminate;
    destruct t as [sb|v|v| |]; cbn; try discriminate;
    unfold insertPreVote, insertPreCommit;
    try destruct (block.PolkaBuilder_Insert (polkaBuilder m) v) as [isNew pb];
    try destruct (block.CommitBuilder_Insert (commitBuilder m) v) as [isNew cb];
    try destruct isNew; cbn [negb].
  all: repeat match goal with
       | |- context [match ?x with _ => _ end] => destruct x
       end.
  all: builders_leaf.
Qed.

(** ** Runs: the round, the height and the commits *)

Lemma outcome_round_sign (m m' : machine) (a : option Action) :
  outcome m m' a -> 0 <= round m <= block.maxInt64 ->
  0 <= round m'
  \/ (round m = block.maxInt64 /\ round m' = block.minInt64
      /\ height m' = height m /\ state m' = WaitingForPropose
      /\ a = Some (Commit (block.commitOver
                             (block.emptyPolka (height m) block.minInt64)))).
Proof.
  intros O Hr.
  inversion O as [Hs Hh Er Hk|blk Hs Hh Er Hl L1 L2 Ea
                  |p Hs Hh Er L1 L2 Ea|c b Hb Hq Hs Hh Er Hl Ea
                  |Hs Hh Er Hl Ea]; try (left; lia).
  destruct (Z.eq_dec (round m) block.maxInt64) as [Em|Nm].
  - right. rewrite Er, Em, Hh, inc_maxInt64.
    split; [reflexivity|]. split; [reflexivity|]. split; [reflexivity|].
    split; [exact Hs|reflexivity].
  - left. rewrite Er.
    rewrite inc_below_max; unfold block.minInt64, block.maxInt64 in *; lia.
Qed.

(** X9.  Across a call of [Transition] a round that is not negative
    stays so, with one exception: the round advance of a machine at the
    largest round, 9223372036854775807, leaves it at the smallest,
    -9223372036854775808, at the same height, with the [Commit] of the
    empty polka of that round. *)
Theorem machine_Transition_round_sign
    (t : Transition) (m m' : machine) (a : option Action) :
  0 <= round m <= block.maxInt64 ->
  machine_Transition t m = Returned (m', a) ->
  0 <= round m'
  \/ (round m = block.maxInt64 /\ round m' = block.minInt64
      /\ height m' = height m /\ state m' = WaitingForPropose
      /\ a = Some (Commit (block.commitOver
                             (block.emptyPolka (height m) block.minInt64)))).
Proof.
  intros Hr E.
  exact (outcome_round_sign m m' a (machine_Transition_outcome t m m' a E) Hr).
Qed.

Lemma blockCommits_cons (a : option Action) (acts : list (option Action)) :
  blockCommits (a :: acts)
  = (if isBlockCommit a then 1 else 0) + blockCommits acts.
Proof.
  unfold blockCommits. cbn [filter].
  destruct (isBlockCommit a); cbn [List.length]; lia.
Qed.

Lemma blockCommits_nonneg (acts : list (option Action)) :
  0 <= blockCommits acts.
Proof. unfold blockCommits. lia. Qed.

Lemma outcome_height (m m' : machine) (a : option Action) :
  (forall (cb : CB) (h : block.Height) (thr : Z) (commit : block.Commit)
          (pcr : option block.Round),
      block.CommitBuilder_Commit cb h thr = (Some commit, pcr) ->
      block.Polka_Height (block.Commit_Polka commit) = h) ->
  outcome m m' a ->
  height m' = (if isBlockCommit a then block.inc (height m) else height m).
Proof.
  intros Hb O.
  inversion O as [Hs Hh Er Hk|blk Hs Hh Er Hl L1 L2 Ea
                  |p Hs Hh Er L1 L2 Ea|c b Ec Hq Hs Hh Er Hl Ea
                  |Hs Hh Er Hl Ea]; cbn; try assumption.
  rewrite Ec. destruct Hq as (cb & pcr & Hq).
  rewrite (Hb cb _ _ c pcr Hq) in Hh. exact Hh.
Qed.

Lemma run_height (ts : list Transition) (m m' : machine)
    (acts : list (option Action)) :
  (forall (cb : CB) (h : block.Height) (thr : Z) (commit : block.Commit)
          (pcr : option block.Round),
      block.CommitBuilder_Commit cb h thr = (Some commit, pcr) ->
      block.Polka_Height (block.Commit_Polka commit) = h) ->
  block.minInt64 <= height m <= block.maxInt64 ->
  run ts m = Returned (m', acts) ->
  height m' = block.wrap64 (height m + blockCommits acts).
Proof.
  intros Hb. revert m m' acts.
  induction ts as [|t ts IH]; intros m m' acts Hm; cbn.
  - intros E; inversion E; subst. unfold blockCommits. cbn.
    rewrite Z.add_0_r. symmetry. apply wrap64_id. exact Hm.
  - destruct (machine_Transition t m) as [[m1 a]|msg] eqn:Et; [|discriminate].
    destruct (run ts m1) as [[m2 acts']|msg] eqn:Er; [|discriminate].
    intros E; inversion E; subst.
    pose proof (outcome_height m m1 a Hb
                  (machine_Transition_outcome t m m1 a Et)) as Oh.
    rewrite blockCommits_cons.
    destruct (isBlockCommit a).
    + assert (Hm1 : block.minInt64 <= height m1 <= block.maxInt64)
        by (rewrite Oh; apply inc_range).
      rewrite (IH m1 m' acts' Hm1 Er), Oh. unfold block.inc.
      rewrite wrap64_add_l. f_equal. lia.
    + assert (Hm1 : block.minInt64 <= height m1 <= block.maxInt64)
        by (rewrite Oh; exact Hm).
      rewrite (IH m1 m' acts' Hm1 Er), Oh. f_equal.
Qed.

(** X10.  When the commit builder only returns commits of the height it
    was asked for, the height after a run is the height before it plus
    the number of [Commit] actions with a block that the run returned,
    as an [int64]: their sum up to the largest height, and its value in
    two's complement beyond.  So as long as that sum is not beyond the
    largest height, the height does not decrease over a run. *)
Theorem run_height_counts_commits
    (ts : list Transition) (m m' : machine) (acts : list (option Action)) :
  (forall (cb : CB) (h : block.Height) (thr : Z) (commit : block.Commit)
          (pcr : option block.Round),
      block.CommitBuilder_Commit cb h thr = (Some commit, pcr) ->
      block.Polka_Height (block.Commit_Polka commit) = h) ->
  block.minInt64 <= height m <= block.maxInt64 ->
  run ts m = Returned (m', acts) ->
  height m' = block.wrap64 (height m + blockCommits acts)
  /\ (height m + blockCommits acts <= block.maxInt64 ->
      height m' = height m + blockCommits acts /\ height m <= height m').
Proof.
  intros Hb Hm E. pose proof (run_height ts m m' acts Hb Hm E) as Eh.
  pose proof (blockCommits_nonneg acts) as Hn.
  split; [exact Eh|]. intros Hs.
  rewrite Eh. rewrite wrap64_id by lia. split; lia.
Qed.

(** ** The exit conditions: the last two rules, and repeated checks *)

Lemma laterRound_None (r : option block.Round) (m : machine) :
  laterRound r m = None <-> noLaterRound r m.
Proof.
  unfold laterRound, noLaterRound. destruct r as [x|].
  - destruct (round m <? x) eqn:Hlt.
    + apply Z.ltb_lt in Hlt. split; [discriminate|].
      intros Hn. specialize (Hn x eq_refl). lia.
    + apply Z.ltb_ge in Hlt. split; [|reflexivity].
      intros _ r' E. inversion E; subst. exact Hlt.
  - split; [intros _ r' E; discriminate E|reflexivity].
Qed.

Lemma noBlockCommit_blockCommit (m : machine) :
  noBlockCommit m <-> blockCommit (fst (queryCommit m)) = None.
Proof.
  unfold noBlockCommit. symmetry. apply blockCommit_None.
Qed.

Lemma preVote_snd (sb : option block.SignedBlock) (m : machine) :
  snd (preVote sb m) <> None.
Proof.
  destruct (preVote_result sb m) as (blk & -> & _). discriminate.
Qed.

Lemma preCommit_snd (m : machine) : snd (preCommit m) <> None.
Proof.
  destruct (preCommit_result m) as (p & m' & -> & _). discriminate.
Qed.

(** X11.  The third rule of [checkCommonExitConditions]: with no commit
    of a block at the height of the machine and no round with a quorum
    of prevotes above its round, a round [r'] with a quorum of
    precommits above its round makes the machine wait for the commit at
    round [r'] and precommit; the height and the builders are kept. *)
Theorem checkCommonExitConditions_precommit_skip
    (m : machine) (r' : block.Round) :
  noBlockCommit m ->
  noLaterRound (snd (queryPolka m)) m ->
  snd (queryCommit m) = Some r' -> round m < r' ->
  checkCommonExitConditions m
  = preCommit (set_round r' (set_state WaitingForCommit m))
  /\ state (fst (checkCommonExitConditions m)) = WaitingForCommit
  /\ round (fst (checkCommonExitConditions m)) = r'
  /\ height (fst (checkCommonExitConditions m)) = height m
  /\ polkaBuilder (fst (checkCommonExitConditions m)) = polkaBuilder m
  /\ commitBuilder (fst (checkCommonExitConditions m)) = commitBuilder m.
Proof.
  intros Hc Hp Hq Hr.
  apply noBlockCommit_blockCommit in Hc. apply laterRound_None in Hp.
  assert (Hl : laterRound (snd (queryCommit m)) m = Some r')
    by (apply laterRound_Some; auto).
  assert (E : checkCommonExitConditions m
              = preCommit (set_round r' (set_state WaitingForCommit m))).
  { destruct (checkCommonExitConditions_cases m)
      as [(c & Hb & _) | [(r2 & _ & Hl2 & _) | [(r2 & _ & _ & Hl2 & ->) | (_ & _ & Hl2 & _)]]];
      congruence. }
  rewrite E.
  destruct (preCommit_frame (set_round r' (set_state WaitingForCommit m)))
    as (-> & -> & ->).
  destruct (preCommit_builders (set_round r' (set_state WaitingForCommit m)))
    as (-> & -> & _).
  repeat split.
Qed.

(** X12.  [checkCommonExitConditions] returns no action exactly when the
    builder has no commit of a block at the height of the machine and
    neither builder reports a round above that of the machine; the
    machine is then left as it was. *)
Theorem checkCommonExitConditions_silent_iff (m : machine) :
  (snd (checkCommonExitConditions m) = None
   <-> (noBlockCommit m
        /\ noLaterRound (snd (queryPolka m)) m
        /\ noLaterRound (snd (queryCommit m)) m))
  /\ (snd (checkCommonExitConditions m) = None ->
      fst (checkCommonExitConditions m) = m).
Proof.
  destruct (checkCommonExitConditions_cases m)
    as [(c & Hb & E) | [(r' & Hb & Hl & E) | [(r' & Hb & Hp & Hl & E) | (Hb & Hp & Hl & E)]]];
    rewrite E; cbn [fst snd].
  - split; [split|]; try discriminate.
    intros (Hc & _). apply noBlockCommit_blockCommit in Hc. congruence.
  - split; [split|].
    + intros Hn. exfalso. exact (preVote_snd _ _ Hn).
    + intros (_ & Hn & _). apply laterRound_None in Hn. congruence.
    + intros Hn. exfalso. exact (preVote_snd _ _ Hn).
  - split; [split|].
    + intros Hn. exfalso. exact (preCommit_snd _ Hn).
    + intros (_ & _ & Hn). apply laterRound_None in Hn. congruence.
    + intros Hn. exfalso. exact (preCommit_snd _ Hn).
  - split; [split|]; try reflexivity.
    intros _. split; [apply noBlockCommit_blockCommit; exact Hb|].
    split; apply laterRound_None; assumption.
Qed.

(** What a check without a commit of a block keeps, and where it leaves
    the round. *)
Lemma checkCommonExitConditions_no_commit (m : machine) :
  blockCommit (fst (queryCommit m)) = None ->
  queryCommit (fst (checkCommonExitConditions m)) = queryCommit m
  /\ queryPolka (fst (checkCommonExitConditions m)) = queryPolka m
  /\ laterRound (snd (queryPolka m)) (fst (checkCommonExitConditions m))
     = None
  /\ (laterRound (snd (queryPolka m)) m = None ->
      laterRound (snd (queryCommit m)) (fst (checkCommonExitConditions m))
      = None).
Proof.
  intros Hb.
  assert (Q : forall m1 : machine,
             polkaBuilder m1 = polkaBuilder m ->
             commitBuilder m1 = commitBuilder m ->
             consensusThreshold m1 = consensusThreshold m ->
             height m1 = height m ->
             queryCommit m1 = queryCommit m /\ queryPolka m1 = queryPolka m).
  { intros m1 E1 E2 E3 E4. unfold queryCommit, queryPolka.
    rewrite E1, E2, E3, E4. split; reflexivity. }
  destruct (checkCommonExitConditions_cases m)
    as [(c & Hc & _) | [(r' & _ & Hl & E) | [(r' & _ & Hp & Hl & E) | (_ & Hp & Hl & E)]]].
  - congruence.
  - rewrite E.
    destruct (preVote_builders None (set_round r' m)) as (B1 & B2 & B3).
    rewrite preVote_fst in *.
    destruct (unlockOnPolka_frame (set_round r' m)) as (_ & Fh & Fr & _).
    destruct (Q _ B1 B2 B3 Fh) as [Q1 Q2].
    split; [exact Q1|]. split; [exact Q2|].
    apply laterRound_Some in Hl. destruct Hl as [Hl Hlt].
    split.
    + apply laterRound_None. intros x Ex. rewrite Fr. cbn.
      rewrite Hl in Ex. inversion Ex; subst. lia.
    + intros Hn. apply laterRound_None in Hn.
      specialize (Hn r' Hl). lia.
  - rewrite E.
    destruct (preCommit_builders (set_round r' (set_state WaitingForCommit m)))
      as (B1 & B2 & B3).
    destruct (preCommit_frame (set_round r' (set_state WaitingForCommit m)))
      as (_ & Fh & Fr).
    destruct (Q _ B1 B2 B3 Fh) as [Q1 Q2].
    split; [exact Q1|]. split; [exact Q2|].
    apply laterRound_Some in Hl. destruct Hl as [Hl Hlt].
    apply laterRound_None in Hp.
    split.
    + apply laterRound_None. intros x Ex. rewrite Fr. cbn.
      specialize (Hp x Ex). lia.
    + intros _. apply laterRound_None. intros x Ex. rewrite Fr. cbn.
      rewrite Hl in Ex. inversion Ex; subst. lia.
  - rewrite E. cbn [fst].
    split; [reflexivity|]. split; [reflexivity|].
    split; [exact Hp|]. intros _. exact Hl.
Qed.

(** X13.  Checking the exit conditions again and again comes to rest:
    on a machine whose builder has no commit of a block at its height,
    after two calls of [checkCommonExitConditions] a third returns no
    action and changes nothing. *)
Theorem checkCommonExitConditions_settles (m : machine) :
  noBlockCommit m ->
  checkCommonExitConditions
    (fst (checkCommonExitConditions (fst (checkCommonExitConditions m))))
  = (fst (checkCommonExitConditions (fst (checkCommonExitConditions m))),
     None).
Proof.
  intros Hc. apply noBlockCommit_blockCommit in Hc.
  destruct (checkCommonExitConditions_no_commit m Hc) as (C1 & P1 & L1 & _).
  set (m1 := fst (checkCommonExitConditions m)) in *.
  assert (Hc1 : blockCommit (fst (queryCommit m1)) = None)
    by (rewrite C1; exact Hc).
  destruct (checkCommonExitConditions_no_commit m1 Hc1) as (C2 & P2 & L2 & K2).
  set (m2 := fst (checkCommonExitConditions m1)) in *.
  rewrite P1 in *. rewrite C1 in *.
  specialize (K2 L1).
  assert (Hc2 : blockCommit (fst (queryCommit m2)) = None)
    by (rewrite C2; exact Hc).
  destruct (checkCommonExitConditions_cases m2)
    as [(c & Hb & _) | [(r' & _ & Hl & _) | [(r' & _ & _ & Hl & _) | (_ & _ & _ & E)]]].
  - congruence.
  - rewrite P2 in Hl. congruence.
  - rewrite C2 in Hl. congruence.
  - exact E.
Qed.

(** ** Votes and time-outs, state by state *)

(** X14.  The prevote that completes a polka: in [WaitingForPolka], on a
    new prevote with which the polka of the builder is of the round of
    the machine, [Transition] returns the [PreCommit] of that polka and
    the machine waits for the commit at the same height and round; it is
    locked on its own round and the block of the polka when the polka
    has a block, and unlocked when it has none. *)
Theorem machine_Transition_polka_completed
    (v : block.SignedPreVote) (m m1 : machine) (p : block.Polka) :
  I1 m -> state m = WaitingForPolka ->
  insertPreVote v m = (true, m1) ->
  fst (queryPolka m1) = Some p -> block.Polka_Round p = round m ->
  exists m' : machine,
    machine_Transition (PreVoted v) m
    = Returned (m', Some (PreCommit (block.mkPreCommit p)))
    /\ state m' = WaitingForCommit
    /\ height m' = height m /\ round m' = round m
    /\ polkaBuilder m' = polkaBuilder m1
    /\ (forall b, block.Polka_Block p = Some b ->
                  lockedRound m' = Some (round m) /\ lockedBlock m' = Some b)
    /\ (block.Polka_Block p = None -> lockCleared m').
Proof.
  intros Hi Hs Ei Hp Hr.
  destruct (insertPreVote_frame v m m1 true Ei) as (_ & Eh & Er & _).
  rewrite (proj1 (proj2 (machine_Transition_in_state (PreVoted v) m Hi)) Hs).
  cbn [waitForPolka]. rewrite Ei. cbn [negb].
  rewrite Hp, Hr, <- Er, Z.eqb_refl.
  unfold preCommit. rewrite queryPolka_set_state, Hp.
  destruct (block.Polka_Block p) as [b|] eqn:Hb.
  - eexists. split; [reflexivity|]. cbn.
    split; [reflexivity|]. split; [exact Eh|]. split; [reflexivity|].
    split; [reflexivity|]. split.
    + intros b' E. inversion E; subst. rewrite Hr, Er. split; reflexivity.
    + discriminate.
  - eexists. split; [reflexivity|]. cbn.
    split; [reflexivity|]. split; [exact Eh|]. split; [reflexivity|].
    split; [reflexivity|]. split.
    + discriminate.
    + intros _. split; reflexivity.
Qed.

(** X15.  A time-out without a quorum does nothing: in [WaitingForPolka]
    when no round at the height of the machine holds a quorum of
    prevotes, and in [WaitingForCommit] when none holds a quorum of
    precommits, [Transition] on [TimedOut] returns no action and the
    machine is as it was. *)
Theorem machine_Transition_TimedOut_no_quorum (m : machine) :
  I1 m ->
  (state m = WaitingForPolka /\ snd (queryPolka m) = None)
  \/ (state m = WaitingForCommit /\ snd (queryCommit m) = None) ->
  machine_Transition TimedOut m = Returned (m, None).
Proof.
  intros Hi [[Hs Hq]|[Hs Hq]].
  - rewrite (proj1 (proj2 (machine_Transition_in_state TimedOut m Hi)) Hs).
    cbn [waitForPolka]. rewrite Hq. reflexivity.
  - rewrite (proj2 (proj2 (machine_Transition_in_state TimedOut m Hi)) Hs).
    cbn [waitForCommit]. rewrite Hq. reflexivity.
Qed.

(** X16.  A time-out in [WaitingForPolka] with a quorum of prevotes at
    some round but no polka: the machine waits for the commit, keeps its
    lock, its height and its round, and precommits the empty polka at
    its height and round. *)
Theorem machine_Transition_TimedOut_no_polka
    (m : machine) (r : block.Round) :
  I1 m -> state m = WaitingForPolka ->
  queryPolka m = (None, Some r) ->
  machine_Transition TimedOut m
  = Returned (set_state WaitingForCommit m,
              Some (PreCommit
                      (block.mkPreCommit
                         (block.emptyPolka (height m) (round m))))).
Proof.
  intros Hi Hs Hq.
  rewrite (proj1 (proj2 (machine_Transition_in_state TimedOut m Hi)) Hs).
  cbn [waitForPolka]. rewrite Hq. cbn [snd].
  unfold preCommit. rewrite queryPolka_set_state, Hq. reflexivity.
Qed.

(** X17.  A precommit that is not new: in [WaitingForPolka] and in
    [WaitingForCommit] the call returns no action and only the commit
    builder may differ, the exit conditions not being checked; in
    [WaitingForPropose] the exit conditions are checked all the same. *)
Theorem machine_Transition_PreCommitted_not_new
    (v : block.SignedPreCommit) (m m1 : machine) :
  I1 m -> insertPreCommit v m = (false, m1) ->
  (state m = WaitingForPolka \/ state m = WaitingForCommit ->
   machine_Transition (PreCommitted v) m = Returned (m1, None))
  /\ (state m = WaitingForPropose ->
      machine_Transition (PreCommitted v) m
      = Returned (checkCommonExitConditions m1)).
Proof.
  intros Hi Ei.
  destruct (machine_Transition_in_state (PreCommitted v) m Hi)
    as (D1 & D2 & D3).
  split.
  - intros [Hs|Hs].
    + rewrite (D2 Hs). cbn [waitForPolka]. rewrite Ei. reflexivity.
    + rewrite (D3 Hs). cbn [waitForCommit]. rewrite Ei. reflexivity.
  - intros Hs. rewrite (D1 Hs). cbn [waitForPropose]. rewrite Ei.
    reflexivity.
Qed.

End MachineOutcomes.

(** * The scenarios again *)

Lemma happyPath_declared : declaredRun scenario.happyPath.
Proof. repeat constructor; intros E; discriminate E. Defined.

(** A call on a machine whose lock has a round and no block panics. *)
Lemma machine_Transition_panics_iff_witness :
  ~ I1 scenario2.uncoupled
  /\ exists msg, machine_Transition TimedOut scenario2.uncoupled = Panicked msg.
Proof.
  assert (N : ~ I1 scenario2.uncoupled).
  { intros [Hi _]. apply Hi; [discriminate|reflexivity]. }
  split; [exact N|].
  exact (proj2 (machine_Transition_panics_iff TimedOut scenario2.uncoupled)
           (or_introl N)).
Defined.

(** Scenario 1 runs without a panic. *)
Lemma NewMachine_run_no_panic_witness :
  exists (m' : scenario.Machine) (acts : list (option Action)),
    run scenario.happyPath scenario.start = Returned (m', acts)
    /\ I1 m' /\ declaredState (state m')
    /\ List.length acts = 7%nat.
Proof.
  assert (S : declaredState WaitingForPropose) by (intros E; discriminate E).
  exact (NewMachine_run_no_panic WaitingForPropose [] [] 3 scenario.happyPath
           S happyPath_declared).
Defined.

(** Scenario 1, the first prevote: no action, and the machine stays
    where it is. *)
Lemma machine_Transition_silent_witness :
  machine_Transition (PreVoted (scenario.prevote 1 (Some scenario.B) 0 0))
    (scenario.after (firstn 1 scenario.happyPath) scenario.start)
  = Returned (scenario.after (firstn 2 scenario.happyPath) scenario.start, None)
  /\ state (scenario.after (firstn 2 scenario.happyPath) scenario.start)
     = WaitingForPolka
  /\ round (scenario.after (firstn 2 scenario.happyPath) scenario.start) = 0.
Proof.
  assert (E : machine_Transition
                (PreVoted (scenario.prevote 1 (Some scenario.B) 0 0))
                (scenario.after (firstn 1 scenario.happyPath) scenario.start)
              = Returned
                  (scenario.after (firstn 2 scenario.happyPath) scenario.start,
                   None))
    by (vm_compute; reflexivity).
  destruct (machine_Transition_silent _ _ _ E) as (Hs & _ & Hr & _).
  split; [exact E|]. split; [exact Hs|exact Hr].
Defined.

(** Scenario 1, the proposal: the prevote is for [B] at height 0, round
    0. *)
Lemma machine_Transition_PreVote_witness :
  machine_Transition (Proposed (Some scenario.B)) scenario.start
  = Returned (scenario.after (firstn 1 scenario.happyPath) scenario.start,
              Some (PreVote (block.mkPreVote (Some scenario.B) 0 0)))
  /\ height (scenario.after (firstn 1 scenario.happyPath) scenario.start) = 0
  /\ round (scenario.after (firstn 1 scenario.happyPath) scenario.start) = 0.
Proof.
  assert (E : machine_Transition (Proposed (Some scenario.B)) scenario.start
              = Returned
                  (scenario.after (firstn 1 scenario.happyPath) scenario.start,
                   Some (PreVote (block.mkPreVote (Some scenario.B) 0 0))))
    by (vm_compute; reflexivity).
  destruct (machine_Transition_PreVote _ _ _ _ E) as (Hh & Hr & _).
  split; [exact E|]. split; [symmetry; exact Hh|symmetry; exact Hr].
Defined.

(** Scenario 1, the third prevote: the precommit of the polka for [B],
    and the lock on (0, [B]). *)
Lemma machine_Transition_PreCommit_witness :
  machine_Transition (PreVoted (scenario.prevote 3 (Some scenario.B) 0 0))
    (scenario.after (firstn 3 scenario.happyPath) scenario.start)
  = Returned
      (scenario.locked,
       Some (PreCommit
               (block.mkPreCommit
                  (block.mkPolka (Some scenario.B) 0 0
                     [103; 102; 101] [3; 2; 1]))))
  /\ state scenario.locked = WaitingForCommit
  /\ lockedRound scenario.locked = Some 0
  /\ lockedBlock scenario.locked = Some scenario.B.
Proof.
  assert (E : machine_Transition
                (PreVoted (scenario.prevote 3 (Some scenario.B) 0 0))
                (scenario.after (firstn 3 scenario.happyPath) scenario.start)
              = Returned
                  (scenario.locked,
                   Some (PreCommit
                           (block.mkPreCommit
                              (block.mkPolka (Some scenario.B) 0 0
                                 [103; 102; 101] [3; 2; 1])))))
    by (vm_compute; reflexivity).
  destruct (machine_Transition_PreCommit _ _ _ _ E) as (Hs & _ & _ & L & _).
  destruct (L scenario.B eq_refl) as [L1 L2].
  split; [exact E|]. split; [exact Hs|]. split; [exact L1|exact L2].
Defined.

(** Scenario 1, the third precommit: the commit of [B], and the machine
    at height 1, round 0, unlocked. *)
Lemma machine_Transition_Commit_witness :
  machine_Transition (PreCommitted (scenario.precommit 3 (Some scenario.B) 0 0))
    (scenario.after (firstn 6 scenario.happyPath) scenario.start)
  = Returned
      (scenario.after scenario.happyPath scenario.start,
       Some (Commit
               (block.mkCommit (block.mkPolka (Some scenario.B) 0 0 [] [])
                  [203; 202; 201] [3; 2; 1])))
  /\ state (scenario.after scenario.happyPath scenario.start)
     = WaitingForPropose.
Proof.
  assert (E : machine_Transition
                (PreCommitted (scenario.precommit 3 (Some scenario.B) 0 0))
                (scenario.after (firstn 6 scenario.happyPath) scenario.start)
              = Returned
                  (scenario.after scenario.happyPath scenario.start,
                   Some (Commit
                           (block.mkCommit
                              (block.mkPolka (Some scenario.B) 0 0 [] [])
                              [203; 202; 201] [3; 2; 1]))))
    by (vm_compute; reflexivity).
  destruct (machine_Transition_Commit _ _ _ _ E) as (Hs & _).
  split; [exact E|exact Hs].
Defined.

(** Scenario 1, the second prevote: the lock is not taken yet. *)
Lemma machine_Transition_lock_witness :
  machine_Transition (PreVoted (scenario.prevote 2 (Some scenario.B) 0 0))
    (scenario.after (firstn 2 scenario.happyPath) scenario.start)
  = Returned (scenario.after (firstn 3 scenario.happyPath) scenario.start, None)
  /\ (lockKept (scenario.after (firstn 2 scenario.happyPath) scenario.start)
        (scenario.after (firstn 3 scenario.happyPath) scenario.start)
      \/ lockCleared
           (scenario.after (firstn 3 scenario.happyPath) scenario.start)).
Proof.
  assert (E : machine_Transition
                (PreVoted (scenario.prevote 2 (Some scenario.B) 0 0))
                (scenario.after (firstn 2 scenario.happyPath) scenario.start)
              = Returned
                  (scenario.after (firstn 3 scenario.happyPath) scenario.start,
                   None))
    by (vm_compute; reflexivity).
  split; [exact E|].
  destruct (machine_Transition_lock _ _ _ _ E) as [K|[C|(p & b & Ea & _)]].
  - left. exact K.
  - right. exact C.
  - discriminate Ea.
Defined.

(** Scenario 1, the first prevote again: the vote is in the polka
    builder after the call and the commit builder is empty as before. *)
Lemma machine_Transition_builders_witness :
  polkaBuilder (scenario.after (firstn 2 scenario.happyPath) scenario.start)
  = [scenario.prevote 1 (Some scenario.B) 0 0]
  /\ commitBuilder (scenario.after (firstn 2 scenario.happyPath) scenario.start)
     = [].
Proof.
  assert (E : machine_Transition
                (PreVoted (scenario.prevote 1 (Some scenario.B) 0 0))
                (scenario.after (firstn 1 scenario.happyPath) scenario.start)
              = Returned
                  (scenario.after (firstn 2 scenario.happyPath) scenario.start,
                   None))
    by (vm_compute; reflexivity).
  destruct (machine_Transition_builders _ _ _ _ E) as (_ & Bp & Bc).
  split; [exact Bp|exact Bc].
Defined.

(** At the largest round a time-out wraps the round around. *)
Lemma machine_Transition_round_sign_witness :
  0 <= round scenario2.atLastRound <= block.maxInt64
  /\ machine_Transition TimedOut scenario2.atLastRound
     = Returned (scenario.after scenario2.lastRound scenario.start,
                 Some (Commit (block.commitOver
                                 (block.emptyPolka 0 block.minInt64))))
  /\ (0 <= round (scenario.after scenario2.lastRound scenario.start)
      \/ (round scenario2.atLastRound = block.maxInt64
          /\ round (scenario.after scenario2.lastRound scenario.start)
             = block.minInt64
          /\ height (scenario.after scenario2.lastRound scenario.start)
             = height scenario2.atLastRound
          /\ state (scenario.after scenario2.lastRound scenario.start)
             = WaitingForPropose
          /\ Some (Commit (block.commitOver
                             (block.emptyPolka 0 block.minInt64)))
             = Some (Commit (block.commitOver
                               (block.emptyPolka
                                  (height scenario2.atLastRound)
                                  block.minInt64))))).
Proof.
  assert (R : 0 <= round scenario2.atLastRound <= block.maxInt64)
    by (split; vm_compute; discriminate).
  assert (E : machine_Transition TimedOut scenario2.atLastRound
              = Returned (scenario.after scenario2.lastRound scenario.start,
                          Some (Commit (block.commitOver
                                          (block.emptyPolka 0 block.minInt64)))))
    by (vm_compute; reflexivity).
  split; [exact R|]. split; [exact E|].
  exact (machine_Transition_round_sign TimedOut scenario2.atLastRound _ _ R E).
Defined.

(** Scenario 1: one commit of a block, and the height goes from 0 to
    1. *)
Lemma run_height_counts_commits_witness :
  exists acts,
    run scenario.happyPath scenario.start
    = Returned (scenario.after scenario.happyPath scenario.start, acts)
    /\ blockCommits acts = 1
    /\ height (scenario.after scenario.happyPath scenario.start)
       = height scenario.start + blockCommits acts.
Proof.
  eexists. split; [vm_compute; reflexivity|]. split; [reflexivity|].
  assert (R : block.minInt64 <= height scenario.start <= block.maxInt64)
    by (split; discriminate).
  refine (proj1 (proj2 (run_height_counts_commits scenario.happyPath
                          scenario.start _ _ aggregator_Commit_height R _) _)).
  - vm_compute. reflexivity.
  - discriminate.
Defined.

(** Three precommits over a nil polka of round 1 reach the machine at
    round 0: it moves to round 1 and waits for the commit. *)
Lemma checkCommonExitConditions_precommit_skip_witness :
  noBlockCommit scenario2.precommitsAhead
  /\ noLaterRound (snd (queryPolka scenario2.precommitsAhead))
       scenario2.precommitsAhead
  /\ snd (queryCommit scenario2.precommitsAhead) = Some 1
  /\ state (fst (checkCommonExitConditions scenario2.precommitsAhead))
     = WaitingForCommit
  /\ round (fst (checkCommonExitConditions scenario2.precommitsAhead)) = 1.
Proof.
  assert (N : noBlockCommit scenario2.precommitsAhead).
  { intros commit E. vm_compute in E. inversion E. reflexivity. }
  assert (P : noLaterRound (snd (queryPolka scenario2.precommitsAhead))
                scenario2.precommitsAhead).
  { intros r' E. vm_compute in E. discriminate E. }
  assert (Q : snd (queryCommit scenario2.precommitsAhead) = Some 1)
    by (vm_compute; reflexivity).
  assert (R : round scenario2.precommitsAhead < 1) by reflexivity.
  destruct (checkCommonExitConditions_precommit_skip
              scenario2.precommitsAhead 1 N P Q R) as (_ & Hs & Hr & _).
  split; [exact N|]. split; [exact P|]. split; [exact Q|].
  split; [exact Hs|exact Hr].
Defined.

(** Scenario 4: after the skip to round 1 a further check does
    nothing. *)
Lemma checkCommonExitConditions_settles_witness :
  noBlockCommit scenario.skippable
  /\ snd (checkCommonExitConditions
            (fst (checkCommonExitConditions
                    (fst (checkCommonExitConditions scenario.skippable)))))
     = None.
Proof.
  assert (N : noBlockCommit scenario.skippable).
  { intros commit E. vm_compute in E. discriminate E. }
  split; [exact N|].
  rewrite (checkCommonExitConditions_settles scenario.skippable N).
  reflexivity.
Defined.

(** Scenario 1, the third prevote, as the prevote that completes the
    polka of round 0. *)
Lemma machine_Transition_polka_completed_witness :
  exists m' : scenario.Machine,
    machine_Transition (PreVoted (scenario.prevote 3 (Some scenario.B) 0 0))
      (scenario.after (firstn 3 scenario.happyPath) scenario.start)
    = Returned
        (m',
         Some (PreCommit
                 (block.mkPreCommit
                    (block.mkPolka (Some scenario.B) 0 0
                       [103; 102; 101] [3; 2; 1]))))
    /\ lockedRound m' = Some 0.
Proof.
  assert (Hi : I1 (scenario.after (firstn 3 scenario.happyPath) scenario.start)).
  { split; intros E; exfalso; exact (E eq_refl). }
  assert (Ei : insertPreVote (scenario.prevote 3 (Some scenario.B) 0 0)
                 (scenario.after (firstn 3 scenario.happyPath) scenario.start)
               = (true, scenario.polkaReady))
    by (vm_compute; reflexivity).
  assert (Hp : fst (queryPolka scenario.polkaReady)
               = Some (block.mkPolka (Some scenario.B) 0 0
                         [103; 102; 101] [3; 2; 1]))
    by (vm_compute; reflexivity).
  destruct (machine_Transition_polka_completed _ _ _ _ Hi eq_refl Ei Hp eq_refl)
    as (m' & E & _ & _ & _ & _ & L & _).
  exists m'. split; [exact E|].
  exact (proj1 (L scenario.B eq_refl)).
Defined.

(** Scenario 2 and then a second time-out, with no prevote in the
    builder: nothing happens. *)
Lemma machine_Transition_TimedOut_no_quorum_witness :
  machine_Transition TimedOut (scenario.after [TimedOut] scenario.start)
  = Returned (scenario.after [TimedOut] scenario.start, None).
Proof.
  apply machine_Transition_TimedOut_no_quorum.
  - split; intros E; exfalso; exact (E eq_refl).
  - left. split; reflexivity.
Defined.

(** Three prevotes of round 0 for [B], [B'] and nil, and a time-out:
    the machine precommits the empty polka. *)
Lemma machine_Transition_TimedOut_no_polka_witness :
  queryPolka scenario2.splitVotes = (None, Some 0)
  /\ machine_Transition TimedOut scenario2.splitVotes
     = Returned (set_state WaitingForCommit scenario2.splitVotes,
                 Some (PreCommit
                         (block.mkPreCommit (block.mkPolka None 0 0 [] [])))).
Proof.
  assert (Q : queryPolka scenario2.splitVotes = (None, Some 0))
    by (vm_compute; reflexivity).
  split; [exact Q|].
  apply (machine_Transition_TimedOut_no_polka scenario2.splitVotes 0).
  - split; intros E; exfalso; exact (E eq_refl).
  - reflexivity.
  - exact Q.
Defined.

(** Scenario 1, the first precommit sent twice: the second is not new,
    and nothing happens. *)
Lemma machine_Transition_PreCommitted_not_new_witness :
  machine_Transition (PreCommitted (scenario.precommit 1 (Some scenario.B) 0 0))
    (scenario.after (firstn 5 scenario.happyPath) scenario.start)
  = Returned (scenario.after (firstn 5 scenario.happyPath) scenario.start, None).
Proof.
  assert (Hi : I1 (scenario.after (firstn 5 scenario.happyPath) scenario.start)).
  { split; intros _; discriminate. }
  assert (Ei : insertPreCommit (scenario.precommit 1 (Some scenario.B) 0 0)
                 (scenario.after (firstn 5 scenario.happyPath) scenario.start)
               = (false,
                  scenario.after (firstn 5 scenario.happyPath) scenario.start))
    by (vm_compute; reflexivity).
  destruct (machine_Transition_PreCommitted_not_new _ _ _ Hi Ei) as (D & _).
  apply D. right. reflexivity.
Defined.
